(** * Sonarr Bangumi Importer: the TVDB-id cache, the resolver and the
      collection fetcher of [src/app/sonarr_bangumi_importer.py]

    The Python module is embedded shallowly.  Its effects (the SQLite
    table [tvdb_cache], the wall clock, the two outbound HTTP calls, the
    logger) are threaded through a small state-and-exception monad over a
    [World]; what the outside answers is read from an [Env] of oracles
    that may depend on everything that happened before.

    Scope of the embedding.
    - A datetime is the count of microseconds since 0001-01-01T00:00:00;
      [isoformat] followed by [fromisoformat] is the identity on it.  The
      two range checks of the arithmetic the source does on datetimes,
      in [timedelta(days=...)] and in the subtraction, are represented.
    - JSON numbers with a fraction or an exponent (Python floats) are not
      represented.
    - The type hints of the source are taken as the data model: a series
      name is a string, a TVDB id is an integer.  Python would carry any
      other JSON value found in one of those two places along; the
      embedding stops such a run with the outcome [Untyped], which no
      handler catches, and no statement below describes it. *)

From Stdlib Require Import ZArith List String Bool Lia.
Import ListNotations.
Local Open Scope string_scope.
Local Open Scope list_scope.
Local Open Scope Z_scope.
Set Warnings "-register-all".

(** ** Python values that reach the program *)

(** What [response.json()] can return. A [JDict] lists the items of the
    decoded object, keys pairwise distinct. *)
Inductive Json : Type :=
| JNull
| JBool (b : bool)
| JInt (z : Z)
| JStr (s : string)
| JList (l : list Json)
| JDict (d : list (string * Json)).

(** The exception classes the module can meet.  All of them derive from
    [Exception]. *)
Inductive Exn : Type :=
| ConnectionError      (* the ConnectionError class of requests.exceptions *)
| RequestTimeout       (* the Timeout class of requests.exceptions *)
| HTTPError            (* raised by raise_for_status *)
| JSONDecodeError      (* raised by response.json() on a body that is not JSON *)
| OperationalError     (* sqlite3: the database cannot be opened or used *)
| OverflowError        (* Python int too large to convert to SQLite INTEGER *)
| KeyError
| IndexError
| TypeError.

Inductive Level : Type := Warning | Error.

(** ** The outside world *)

Inductive Event : Type :=
| EvClock                    (* datetime.now() *)
| EvConnect                  (* sqlite3.connect(CONFIG['database']['path']) *)
| EvSonarr (term : string)   (* GET {sonarr.url}/api/v3/series/lookup?term=... *)
| EvBangumi                  (* GET https://api.bgm.tv/user/{id}/collection?cat=watching *)
| EvLog (lvl : Level).       (* app.logger.warning / app.logger.error *)

Inductive NetFailure : Type := Unreachable | TimedOut.

Inductive Body : Type :=
| Undecodable
| Decoded (j : Json).

(** The answer to one [requests.get]. *)
Inductive HttpReply : Type :=
| NoReply (f : NetFailure)
| Reply (status_code : Z) (body : Body).

(** Configuration and oracles. Every oracle sees the events that came
    before the one it answers, newest first. *)
Record Env : Type := {
  expire_days : Z;                                  (* CONFIG['cache']['expire_days'] *)
  clock : list Event -> Z;                          (* reading of datetime.now() *)
  db_reachable : list Event -> bool;                (* the database file can be opened and used *)
  sonarr_lookup : list Event -> string -> HttpReply;
  bgm_collection : list Event -> HttpReply;
  json_error_is_request_exception : bool            (* true from requests 2.27 on *)
}.

(** ** The table [tvdb_cache] *)

Record Row : Type := {
  id : Z;                  (* INTEGER PRIMARY KEY AUTOINCREMENT *)
  series_name : string;    (* TEXT UNIQUE *)
  tvdb_id : Z;             (* INTEGER *)
  created_at : Z           (* DATETIME, the isoformat text of a datetime *)
}.

Record Table : Type := {
  rows : list Row;
  seq : Z                  (* sqlite_sequence: the largest id ever handed out *)
}.

Definition empty_table : Table := {| rows := []; seq := 0 |}.

(** [CREATE TABLE IF NOT EXISTS]: [None] is a database without the table. *)
Definition init_db (db : option Table) : Table :=
  match db with
  | Some t => t
  | None => empty_table
  end.

Definition named (name : string) (r : Row) : bool := String.eqb name (series_name r).

(** [SELECT tvdb_id, created_at FROM tvdb_cache WHERE series_name = ?]
    followed by [fetchone()]. *)
Definition select_by_name (name : string) (t : Table) : option Row :=
  find (named name) (rows t).

(** [REPLACE INTO tvdb_cache (series_name, tvdb_id, created_at) VALUES (?, ?, ?)]:
    the rows that clash on the UNIQUE column are deleted, then the new row
    is inserted under a fresh id. *)
Definition replace_into (name : string) (tvdb : Z) (created : Z) (t : Table) : Table :=
  {| rows := filter (fun r => negb (named name r)) (rows t)
             ++ [ {| id := seq t + 1; series_name := name;
                     tvdb_id := tvdb; created_at := created |} ];
     seq := seq t + 1 |}.

Record World : Type := {
  table : Table;
  trace : list Event       (* newest first *)
}.

Definition happened (e : Event) (w : World) : World :=
  {| table := table w; trace := e :: trace w |}.

(** ** The monad *)

Inductive Outcome (A : Type) : Type :=
| Ok (a : A)
| Raise (e : Exn)
| Untyped.
Arguments Ok {A} a.
Arguments Raise {A} e.
Arguments Untyped {A}.

Definition M (A : Type) : Type := World -> Outcome A * World.

Definition ret {A} (a : A) : M A := fun w => (Ok a, w).
Definition raise {A} (e : Exn) : M A := fun w => (Raise e, w).
Definition untyped {A} : M A := fun w => (Untyped, w).

Definition bind {A B} (m : M A) (k : A -> M B) : M B :=
  fun w =>
    match m w with
    | (Ok a, w') => k a w'
    | (Raise e, w') => (Raise e, w')
    | (Untyped, w') => (Untyped, w')
    end.

(** [try: m  except <classes accepted by handles> as e: h e] *)
Definition try_except {A} (m : M A) (handles : Exn -> bool) (h : Exn -> M A) : M A :=
  fun w =>
    match m w with
    | (Raise e, w') => if handles e then h e w' else (Raise e, w')
    | r => r
    end.

Declare Scope py_scope.
Delimit Scope py_scope with py.
Notation "x <- m ;; k" := (bind m (fun x => k))
  (at level 100, m at next level, right associativity) : py_scope.
Notation "m ;; k" := (bind m (fun _ => k))
  (at level 100, right associativity) : py_scope.
Local Open Scope py_scope.

Definition emit (e : Event) : M unit := fun w => (Ok tt, happened e w).
Definition log (lvl : Level) : M unit := emit (EvLog lvl).
Definition lift {A} (o : Outcome A) : M A := fun w => (o, w).

(** ** Library calls *)

Section Primitives.
Variable E : Env.

Definition datetime_now : M Z :=
  fun w => (Ok (clock E (trace w)), happened EvClock w).

(** The first count that is no datetime any more: the largest datetime
    is 9999-12-31T23:59:59.999999. *)
Definition datetime_end : Z := 3652059 * 86400000000.

(** [timedelta(days=d)], in microseconds; the constructor refuses more
    than 999999999 days in either direction. *)
Definition timedelta_days (d : Z) : Outcome Z :=
  if Z.abs d <=? 999999999 then Ok (d * 86400000000) else Raise OverflowError.

(** [t - delta] for a datetime [t]: the difference has to be a datetime. *)
Definition datetime_sub (t delta : Z) : Outcome Z :=
  if (0 <=? t - delta) && (t - delta <? datetime_end)
  then Ok (t - delta)
  else Raise OverflowError.

(** Opening the database. A store that cannot be opened or used makes
    the operation raise here, before it reads or writes anything. *)
Definition sqlite3_connect : M unit :=
  fun w => (if db_reachable E (trace w) then Ok tt else Raise OperationalError,
            happened EvConnect w).

Definition fetchone (name : string) : M (option Row) :=
  fun w => (Ok (select_by_name name (table w)), w).

(** sqlite3 binds a Python int only when it fits a signed 64-bit integer. *)
Definition in_int64 (z : Z) : bool := (- 2 ^ 63 <=? z) && (z <? 2 ^ 63).

Definition execute_replace (name : string) (tvdb : Z) (created : Z) : M unit :=
  fun w =>
    if in_int64 tvdb
    then (Ok tt, {| table := replace_into name tvdb created (table w); trace := trace w |})
    else (Raise OverflowError, w).

(** [requests.get(...)]: the status code and the body of the response. *)
Definition requests_get (ev : Event) (answer : list Event -> HttpReply) : M (Z * Body) :=
  fun w =>
    (match answer (trace w) with
     | NoReply Unreachable => Raise ConnectionError
     | NoReply TimedOut => Raise RequestTimeout
     | Reply code b => Ok (code, b)
     end, happened ev w).

Definition raise_for_status (response : Z * Body) : M unit :=
  if (400 <=? fst response) && (fst response <? 600) then raise HTTPError else ret tt.

Definition response_json (response : Z * Body) : M Json :=
  match snd response with
  | Undecodable => raise JSONDecodeError
  | Decoded j => ret j
  end.

(** [isinstance(e, requests.exceptions.RequestException)] *)
Definition is_RequestException (e : Exn) : bool :=
  match e with
  | ConnectionError | RequestTimeout | HTTPError => true
  | JSONDecodeError => json_error_is_request_exception E
  | _ => false
  end.

(** [isinstance(e, Exception)] *)
Definition is_Exception (e : Exn) : bool := true.
End Primitives.

(** ** Python operators on decoded JSON *)

(** [bool(j)] *)
Definition truthy (j : Json) : bool :=
  match j with
  | JNull => false
  | JBool b => b
  | JInt z => negb (z =? 0)
  | JStr s => negb (String.eqb s EmptyString)
  | JList l => match l with [] => false | _ => true end
  | JDict d => match d with [] => false | _ => true end
  end.

Fixpoint assoc (k : string) (d : list (string * Json)) : option Json :=
  match d with
  | [] => None
  | (k', v) :: d' => if String.eqb k k' then Some v else assoc k d'
  end.

(** [j[0]] *)
Definition getitem_0 (j : Json) : Outcome Json :=
  match j with
  | JList (x :: _) => Ok x
  | JList [] => Raise IndexError
  | JStr (String c _) => Ok (JStr (String c EmptyString))
  | JStr EmptyString => Raise IndexError
  | JDict _ => Raise KeyError
  | JNull | JBool _ | JInt _ => Raise TypeError
  end.

(** [j[k]] for a string [k] *)
Definition getitem (j : Json) (k : string) : Outcome Json :=
  match j with
  | JDict d => match assoc k d with Some v => Ok v | None => Raise KeyError end
  | _ => Raise TypeError
  end.

(** The items [for item in j] goes through. *)
Definition iterate (j : Json) : Outcome (list Json) :=
  match j with
  | JList l => Ok l
  | JDict d => Ok (map (fun kv => JStr (fst kv)) d)
  | JStr s => Ok (map (fun c => JStr (String c EmptyString)) (list_ascii_of_string s))
  | JNull | JBool _ | JInt _ => Raise TypeError
  end.

(** The two places where the type hints fix the kind of scalar. *)
Definition as_int (j : Json) : M Z :=
  match j with JInt z => ret z | _ => untyped end.

Definition as_str (j : Json) : M string :=
  match j with JStr s => ret s | _ => untyped end.

(** ** class TVDBCache *)

Module TVDBCache.
Section WithEnv.
Variable E : Env.

Definition get (series_name : string) : M (option Z) :=
  sqlite3_connect E ;;
  result <- fetchone series_name ;;
  match result with
  | Some r =>
      now <- datetime_now E ;;
      delta <- lift (timedelta_days (expire_days E)) ;;
      cutoff <- lift (datetime_sub now delta) ;;
      if cutoff <? created_at r
      then ret (Some (tvdb_id r))      (* int(result[0]) *)
      else ret None
  | None => ret None
  end.

Definition set (series_name : string) (tvdb : Z) : M unit :=
  sqlite3_connect E ;;
  now <- datetime_now E ;;
  execute_replace series_name tvdb now.
End WithEnv.
End TVDBCache.


(** ** The resolver, the fetcher and the route *)

Record CollectionItem : Type := {
  title : string;
  tvdbId : Z
}.

(** What Flask sends back: [payload] is the JSON body of a [jsonify]
    response; the framework's own error page has none. *)
Record HttpResponse : Type := {
  status : Z;
  payload : option (list CollectionItem)
}.

Definition jsonify (items : list CollectionItem) : HttpResponse :=
  {| status := 200; payload := Some items |}.

(** A list comprehension [[f item for item in l]]. *)
Fixpoint comprehension {A B : Type} (f : A -> M B) (l : list A) : M (list B) :=
  match l with
  | [] => ret []
  | item :: rest =>
      y <- f item ;;
      ys <- comprehension f rest ;;
      ret (y :: ys)
  end.

Section Importer.
Variable E : Env.

(** The body of the [try] in [lookup_series_by_name]. *)
Definition sonarr_request (series_name : string) : M Z :=
  response <- requests_get (EvSonarr series_name)
                           (fun tr => sonarr_lookup E tr series_name) ;;
  raise_for_status response ;;
  results <- response_json response ;;
  if negb (truthy results)
  then log Warning ;; ret 0
  else
    first <- lift (getitem_0 results) ;;
    field <- lift (getitem first "tvdbId") ;;
    tvdb <- as_int field ;;
    TVDBCache.set E series_name tvdb ;;
    ret tvdb.

(** [if cached_id := TVDBCache.get(series_name): return cached_id] tests
    the truth value of an [Optional[int]]: [None] and [0] are false. *)
Definition lookup_series_by_name (series_name : string) : M Z :=
  let ask :=
    try_except (sonarr_request series_name) (is_RequestException E)
               (fun _ => log Error ;; ret 0) in
  cached <- TVDBCache.get E series_name ;;
  match cached with
  | Some cached_id => if negb (cached_id =? 0) then ret cached_id else ask
  | None => ask
  end.

(** One element of the comprehension in [get_bgm_collection]. The source
    evaluates [item['name']] twice, for the title and for the argument of
    the resolver, with the same result. *)
Definition collection_item (item : Json) : M CollectionItem :=
  name <- lift (getitem item "name") ;;
  name <- as_str name ;;
  resolved <- lookup_series_by_name name ;;
  ret {| title := name; tvdbId := resolved |}.

Definition get_bgm_collection : M (list CollectionItem) :=
  try_except
    (response <- requests_get EvBangumi (bgm_collection E) ;;
     raise_for_status response ;;
     data <- response_json response ;;
     items <- lift (iterate data) ;;
     comprehension collection_item items)
    is_Exception
    (fun _ => log Error ;; ret []).

(** [@app.route('/watching-list', methods=['GET'])] *)
Definition get_list : M HttpResponse :=
  items <- get_bgm_collection ;;
  ret (jsonify items).

(** Flask around a view: an exception that leaves the view becomes the
    framework's 500 page. *)
Definition flask_dispatch (view : M HttpResponse) : M HttpResponse :=
  try_except view is_Exception (fun _ => ret {| status := 500; payload := None |}).

Definition GET_watching_list : M HttpResponse := flask_dispatch get_list.
End Importer.

(** ** Vocabulary of the statements *)

(** The configured validity window, in microseconds. *)
Definition expiry_window (E : Env) : Z := expire_days E * 86400000000.

(** The arithmetic of a read at time [now] stays within what [timedelta]
    and [datetime] can hold: the window has at most 999999999 days and
    [now - window] is a datetime. *)
Definition cutoff_representable (E : Env) (now : Z) : Prop :=
  Z.abs (expire_days E) <= 999999999
  /\ 0 <= now - expiry_window E < datetime_end.

(** An entry for [name]: a row stored under exactly that name. *)
Definition entry_for (name : string) (t : Table) (r : Row) : Prop :=
  In r (rows t) /\ series_name r = name.

(** At most one entry per series name. *)
Definition unique_names (t : Table) : Prop :=
  forall name, (List.length (filter (named name) (rows t)) <= 1)%nat.

(** The worlds a process can be in: it starts on the table [init_db]
    creates and then runs cache operations in any order. *)
Inductive reachable (E : Env) : World -> Prop :=
| reach_init tr : reachable E {| table := init_db None; trace := tr |}
| reach_get name w :
    reachable E w -> reachable E (snd (TVDBCache.get E name w))
| reach_set name v w :
    reachable E w -> reachable E (snd (TVDBCache.set E name v w)).

(** The calls to the lookup API recorded in a trace. *)
Definition is_sonarr_call (e : Event) : bool :=
  match e with EvSonarr _ => true | _ => false end.

Definition sonarr_calls (w : World) : list Event := filter is_sonarr_call (trace w).

(** Midnight of 2026-11-03. *)
Definition today : Z := 739922 * 86400000000.

(** A small environment: the clock starts at [today] and advances one
    second per event. *)
Definition static_env (days : Z) (up : bool) (sonarr : string -> HttpReply)
    (bgm : HttpReply) : Env :=
  {| expire_days := days;
     clock := fun tr => today + 1000000 * Z.of_nat (List.length tr);
     db_reachable := fun _ => up;
     sonarr_lookup := fun _ => sonarr;
     bgm_collection := fun _ => bgm;
     json_error_is_request_exception := true |}.

Definition found (tvdb : Z) : HttpReply :=
  Reply 200 (Decoded (JList [JDict [("title", JStr "x"); ("tvdbId", JInt tvdb)]])).

Definition no_series : string -> HttpReply := fun _ => Reply 200 (Decoded (JList [])).

Definition start : World := {| table := init_db None; trace := [] |}.

(** A live entry for [name] at time [now]: stored under that name and
    younger than the window, [now - resolvedAt < expiryWindow]. *)
Definition live_entry (E : Env) (now : Z) (name : string) (t : Table) (r : Row) : Prop :=
  entry_for name t r /\ now - created_at r < expiry_window E.

(** The clock reading a cache operation started in [w] obtains. *)
Definition read_time (E : Env) (w : World) : Z := clock E (EvConnect :: trace w).

Definition quiet_env : Env := static_env 7 true no_series (Reply 200 (Decoded (JList []))).

Definition two_rows : Table :=
  {| rows := [ {| id := 1; series_name := "Example"; tvdb_id := 42; created_at := today |};
               {| id := 2; series_name := "example"; tvdb_id := 7; created_at := today |} ];
     seq := 2 |}.

Definition world_of (t : Table) : World := {| table := t; trace := [] |}.

(** What requests calls a failed response: [raise_for_status] raises on
    exactly these status codes. *)
Definition failed_status (code : Z) : Prop := 400 <= code < 600.

(** The lookup call fails: no response (network error, timeout) or a
    response with a failed status. *)
Definition lookup_failed (r : HttpReply) : Prop :=
  match r with
  | NoReply _ => True
  | Reply code _ => failed_status code
  end.

(** The lookup call succeeds with an empty result set. *)
Definition lookup_empty (r : HttpReply) : Prop :=
  match r with
  | Reply code (Decoded (JList [])) => ~ failed_status code
  | _ => False
  end.

(** The lookup call succeeds with the results [first :: rest]. *)
Definition lookup_results (r : HttpReply) (first : Json) (rest : list Json) : Prop :=
  exists code, r = Reply code (Decoded (JList (first :: rest))) /\ ~ failed_status code.

(** The row a resolution of [name] to [tvdb] writes at time [t]. *)
Definition written (name : string) (tvdb t : Z) (r : Row) : Prop :=
  series_name r = name /\ tvdb_id r = tvdb /\ created_at r = t.

(** The world in which the lookup API is asked, after a cache read ended in [w1]. *)
Definition asked (name : string) (w1 : World) : World := happened (EvSonarr name) w1.

Definition stale_zero : Table :=
  {| rows := [ {| id := 1; series_name := "A"; tvdb_id := 0; created_at := today |} ];
     seq := 1 |}.

Definition finds (tvdb : Z) : Env :=
  static_env 7 true (fun _ => found tvdb) (Reply 200 (Decoded (JList []))).

Definition times_out : Env :=
  static_env 7 true (fun _ => NoReply TimedOut) (Reply 200 (Decoded (JList []))).

(** The entry of the tracking-service response carries the display name. *)
Definition has_name (entry : Json) (name : string) : Prop :=
  getitem entry "name" = Ok (JStr name).

(** The resolver, called on the names one after the other from the world
    [w], returns the identifiers [ids] and ends in the last world. *)
Inductive resolved_in_turn (E : Env) : World -> list string -> list Z -> World -> Prop :=
| turn_done w : resolved_in_turn E w [] [] w
| turn_next w name names v ids w1 w2 :
    lookup_series_by_name E name w = (Ok v, w1) ->
    resolved_in_turn E w1 names ids w2 ->
    resolved_in_turn E w (name :: names) (v :: ids) w2.

Definition items_of (names : list string) (ids : list Z) : list CollectionItem :=
  map (fun p => {| title := fst p; tvdbId := snd p |}) (combine names ids).

(** The result of running [m] from [w1], with [f] applied to a value it returns. *)
Definition and_then {A B : Type} (f : A -> B) (r : Outcome A * World) : Outcome B * World :=
  match r with
  | (Ok a, w) => (Ok (f a), w)
  | (Raise e, w) => (Raise e, w)
  | (Untyped, w) => (Untyped, w)
  end.

(** A failure contacting the tracking service, and the world it leaves:
    no response, a failed status, a body that is not JSON, a payload that
    cannot be iterated, or an entry without a display name met after the
    entries before it were resolved. *)
Inductive fetch_fails (E : Env) (w : World) : World -> Prop :=
| ff_no_reply f :
    bgm_collection E (trace w) = NoReply f ->
    fetch_fails E w (happened EvBangumi w)
| ff_status code b :
    bgm_collection E (trace w) = Reply code b -> failed_status code ->
    fetch_fails E w (happened EvBangumi w)
| ff_body code :
    bgm_collection E (trace w) = Reply code Undecodable -> ~ failed_status code ->
    fetch_fails E w (happened EvBangumi w)
| ff_shape code j e :
    bgm_collection E (trace w) = Reply code (Decoded j) -> ~ failed_status code ->
    iterate j = Raise e ->
    fetch_fails E w (happened EvBangumi w)
| ff_entry code j pre bad post names ids w1 e :
    bgm_collection E (trace w) = Reply code (Decoded j) -> ~ failed_status code ->
    iterate j = Ok (pre ++ bad :: post) ->
    Forall2 has_name pre names ->
    resolved_in_turn E (happened EvBangumi w) names ids w1 ->
    getitem bad "name" = Raise e ->
    fetch_fails E w w1.

(** The store fails during the resolution of [name] started in [w1],
    on the read or on the write; the last world is the one the failing
    operation leaves. *)
Inductive store_fails (E : Env) (name : string) (w1 : World) : World -> Prop :=
| fails_on_read :
    db_reachable E (trace w1) = false ->
    store_fails E name w1 (happened EvConnect w1)
| fails_on_write w2 first rest tvdb :
    TVDBCache.get E name w1 = (Ok None, w2) ->
    lookup_results (sonarr_lookup E (trace w2) name) first rest ->
    getitem first "tvdbId" = Ok (JInt tvdb) ->
    db_reachable E (trace (asked name w2)) = false ->
    store_fails E name w1 (happened EvConnect (asked name w2)).

(** A lookup payload of the wrong shape: a value that is not a list and
    that Python counts as true, or a list whose first result has no
    identifier field. *)
Definition lacks_identifier (j : Json) : Prop :=
  match j with
  | JList (first :: _) => forall v, getitem first "tvdbId" <> Ok v
  | JList [] => False
  | _ => truthy j = true
  end.

Definition watching (names : list string) : HttpReply :=
  Reply 200 (Decoded (JList (map (fun n => JDict [("name", JStr n)]) names))).

(** The lookup service of the example in the specification: it knows "A" only. *)
Definition knows_A (tvdb : Z) : string -> HttpReply :=
  fun term => if String.eqb term "A" then found tvdb else Reply 200 (Decoded (JList [])).

Definition example_env : Env := static_env 7 true (knows_A 1) (watching ["A"; "B"]).

Definition bangumi_down : Env := static_env 7 true (knows_A 1) (NoReply Unreachable).

Definition store_down : Env := static_env 7 false (knows_A 1) (watching ["A"; "B"]).

Definition answers (j : Json) : Env :=
  static_env 7 true (fun _ => Reply 200 (Decoded j)) (watching ["A"; "B"]).

(** ** Vocabulary of the further properties *)

(** The ids AUTOINCREMENT has handed out: pairwise distinct, positive and
    not above the sequence counter. *)
Definition ids_fresh (t : Table) : Prop :=
  NoDup (map id (rows t)) /\ 0 <= seq t /\ Forall (fun r => 0 < id r <= seq t) (rows t).

(** The rows stored under [name]. *)
Definition rows_of (name : string) (t : Table) : list Row := filter (named name) (rows t).

(** What asking the lookup API after a cache read that ended in [w1] can
    come to: the sentinel with a log line, an exception that is not a
    request error, a payload outside the typed model, a store that fails
    on the write, an identifier SQLite cannot hold, or a written row. *)
Inductive ask_result (E : Env) (name : string) (w1 : World) : Outcome Z * World -> Prop :=
| ask_sentinel lvl :
    ask_result E name w1 (Ok 0, happened (EvLog lvl) (asked name w1))
| ask_escapes e :
    is_RequestException E e = false ->
    ask_result E name w1 (Raise e, asked name w1)
| ask_untyped :
    ask_result E name w1 (Untyped, asked name w1)
| ask_store_down :
    ask_result E name w1 (Raise OperationalError, happened EvConnect (asked name w1))
| ask_overflow :
    ask_result E name w1
      (Raise OverflowError, happened EvClock (happened EvConnect (asked name w1)))
| ask_written tvdb :
    ask_result E name w1
      (Ok tvdb,
       {| table := replace_into name tvdb (read_time E (asked name w1)) (table w1);
          trace := EvClock :: EvConnect :: trace (asked name w1) |}).

(** What one call of the resolver can come to. *)
Inductive lookup_result (E : Env) (name : string) (w : World) : Outcome Z * World -> Prop :=
| res_read_raises e w1 :
    TVDBCache.get E name w = (Raise e, w1) ->
    lookup_result E name w (Raise e, w1)
| res_hit v w1 :
    TVDBCache.get E name w = (Ok (Some v), w1) -> v <> 0 ->
    lookup_result E name w (Ok v, w1)
| res_ask c w1 r :
    TVDBCache.get E name w = (Ok c, w1) -> c = None \/ c = Some 0 ->
    ask_result E name w1 r ->
    lookup_result E name w r.

Definition is_bangumi_call (e : Event) : bool :=
  match e with EvBangumi => true | _ => false end.

Definition bangumi_calls (w : World) : list Event := filter is_bangumi_call (trace w).


Definition three_rows : Table :=
  replace_into "C" 3 30 (replace_into "A" 9 20 (replace_into "B" 2 10
    (replace_into "A" 1 0 empty_table))).

Definition finds_oversized : Env :=
  static_env 7 true (fun _ => found (2 ^ 63)) (watching ["A"; "B"]).

(** The item built for an entry of the response carries its display name. *)
Definition item_of_entry (entry : Json) (it : CollectionItem) : Prop :=
  has_name entry (title it).

Definition answers_object : Env :=
  static_env 7 true (knows_A 1) (Reply 200 (Decoded (JDict [("error", JStr "not found")]))).

Definition half_named : Env :=
  static_env 7 true (knows_A 1)
    (Reply 200 (Decoded (JList [JDict [("name", JStr "A")]; JDict [("id", JInt 5)]]))).

(** [datetime.now() - timedelta(days=expire_days)] for the reading [now]. *)
Definition expiry_cutoff (E : Env) (now : Z) : Outcome Z :=
  match timedelta_days (expire_days E) with
  | Ok delta => datetime_sub now delta
  | Raise e => Raise e
  | Untyped => Untyped
  end.

(** The lookup service answers with several candidates. *)
Definition several : HttpReply :=
  Reply 200 (Decoded (JList [ JDict [("title", JStr "x"); ("tvdbId", JInt 42)];
                              JDict [("title", JStr "y"); ("tvdbId", JInt 7)];
                              JDict [("title", JStr "z")] ])).

Definition finds_several : Env :=
  static_env 7 true (fun _ => several) (Reply 200 (Decoded (JList []))).

Definition huge_window : Env :=
  static_env 739923 true no_series (Reply 200 (Decoded (JList []))).

(** * Properties *)

(** A concrete status code is not a failed one. *)
Ltac status_ok := unfold failed_status; lia.

(** ** Running the two cache operations *)

Lemma cutoff_cases (E : Env) (now : Z) :
  expiry_cutoff E now = Ok (now - expiry_window E)
  \/ expiry_cutoff E now = Raise OverflowError.
Proof.
  unfold expiry_cutoff, timedelta_days, datetime_sub, expiry_window.
  destruct (Z.abs (expire_days E) <=? 999999999); [|right; reflexivity].
  destruct ((0 <=? _) && (_ <? datetime_end)); [left | right]; reflexivity.
Qed.

Lemma cutoff_ok (E : Env) (now : Z) :
  cutoff_representable E now -> expiry_cutoff E now = Ok (now - expiry_window E).
Proof.
  intros [Hdays [Hlo Hhi]].
  unfold expiry_cutoff, timedelta_days, datetime_sub. fold (expiry_window E).
  apply Z.leb_le in Hdays, Hlo. apply Z.ltb_lt in Hhi.
  rewrite Hdays, Hlo, Hhi. reflexivity.
Qed.

Lemma get_run (E : Env) (name : string) (w : World) :
  TVDBCache.get E name w =
  if db_reachable E (trace w) then
    match select_by_name name (table w) with
    | Some r =>
        (match expiry_cutoff E (clock E (EvConnect :: trace w)) with
         | Ok cutoff => Ok (if cutoff <? created_at r then Some (tvdb_id r) else None)
         | Raise e => Raise e
         | Untyped => Untyped
         end,
         happened EvClock (happened EvConnect w))
    | None => (Ok None, happened EvConnect w)
    end
  else (Raise OperationalError, happened EvConnect w).
Proof.
  unfold TVDBCache.get, bind, sqlite3_connect, fetchone, datetime_now, lift, expiry_cutoff.
  cbn. destruct (db_reachable E (trace w)); [|reflexivity].
  destruct (select_by_name name (table w)) as [r|]; [|reflexivity].
  cbn. destruct (timedelta_days (expire_days E)) as [delta|e|]; [|reflexivity|reflexivity].
  destruct (datetime_sub _ delta) as [cutoff|e|]; [|reflexivity|reflexivity].
  destruct (cutoff <? created_at r); reflexivity.
Qed.

Lemma set_run (E : Env) (name : string) (v : Z) (w : World) :
  TVDBCache.set E name v w =
  if db_reachable E (trace w) then
    if in_int64 v then
      (Ok tt, {| table := replace_into name v (clock E (EvConnect :: trace w)) (table w);
                 trace := EvClock :: EvConnect :: trace w |})
    else (Raise OverflowError, happened EvClock (happened EvConnect w))
  else (Raise OperationalError, happened EvConnect w).
Proof.
  unfold TVDBCache.set, bind, sqlite3_connect, datetime_now, execute_replace.
  cbn. destruct (db_reachable E (trace w)); [|reflexivity].
  destruct (in_int64 v); reflexivity.
Qed.

Lemma get_keeps_table (E : Env) (name : string) (w : World) :
  table (snd (TVDBCache.get E name w)) = table w.
Proof.
  rewrite get_run. destruct (db_reachable E (trace w)); [|reflexivity].
  destruct (select_by_name name (table w)); reflexivity.
Qed.

(** ** Rows and names *)

Lemma named_iff (name : string) (r : Row) : named name r = true <-> series_name r = name.
Proof. unfold named. rewrite String.eqb_eq. split; congruence. Qed.

Lemma named_refl (name : string) (v c i : Z) :
  named name {| id := i; series_name := name; tvdb_id := v; created_at := c |} = true.
Proof. apply named_iff. reflexivity. Qed.

Lemma filter_absent (name : string) (l : list Row) :
  (forall r, In r l -> series_name r <> name) -> filter (named name) l = [].
Proof.
  induction l as [|r l IH]; intros H; [reflexivity|].
  cbn. destruct (named name r) eqn:Hr.
  - apply named_iff in Hr. exfalso. apply (H r); [left; reflexivity | exact Hr].
  - apply IH. intros r' Hin. apply H. right. exact Hin.
Qed.

Lemma filter_others_length (p q : Row -> bool) (l : list Row) :
  (List.length (filter p (filter q l)) <= List.length (filter p l))%nat.
Proof.
  induction l as [|r l IH]; [apply le_n|].
  cbn. destruct (q r); cbn; destruct (p r); cbn; lia.
Qed.

Lemma filter_own_removed (name : string) (l : list Row) :
  filter (named name) (filter (fun r => negb (named name r)) l) = [].
Proof.
  apply filter_absent. intros r Hin Hname.
  apply filter_In in Hin. destruct Hin as [_ Hneg].
  apply named_iff in Hname. rewrite Hname in Hneg. discriminate Hneg.
Qed.

Lemma find_the_entry (name : string) (l : list Row) (r : Row) :
  (List.length (filter (named name) l) <= 1)%nat ->
  In r l -> series_name r = name -> find (named name) l = Some r.
Proof.
  induction l as [|r0 l IH]; intros Hlen Hin Hname; [destruct Hin|].
  cbn in *. destruct (named name r0) eqn:H0.
  - destruct Hin as [->|Hin]; [reflexivity|].
    exfalso. cbn in Hlen.
    assert (Hmem : In r (filter (named name) l))
      by (apply filter_In; split; [exact Hin | apply named_iff; exact Hname]).
    destruct (filter (named name) l); [destruct Hmem | cbn in Hlen; lia].
  - destruct Hin as [->|Hin].
    + apply named_iff in Hname. congruence.
    + apply IH; assumption.
Qed.

Lemma select_sound (name : string) (t : Table) (r : Row) :
  select_by_name name t = Some r -> entry_for name t r.
Proof.
  unfold select_by_name, entry_for. intros H. apply find_some in H.
  destruct H as [Hin Hn]. split; [exact Hin | apply named_iff; exact Hn].
Qed.

Lemma select_none (name : string) (t : Table) :
  select_by_name name t = None -> forall r, ~ entry_for name t r.
Proof.
  unfold select_by_name, entry_for. intros H r [Hin Hn].
  apply (find_none _ _ H) in Hin. apply named_iff in Hn. congruence.
Qed.

Lemma select_complete (name : string) (t : Table) (r : Row) :
  unique_names t -> entry_for name t r -> select_by_name name t = Some r.
Proof.
  intros Hu [Hin Hn]. apply find_the_entry; [apply Hu | exact Hin | exact Hn].
Qed.

Lemma NoDup_unique_names (t : Table) :
  NoDup (map series_name (rows t)) -> unique_names t.
Proof.
  unfold unique_names. induction (rows t) as [|r l IH]; intros Hnd name; [apply le_0_n|].
  cbn in Hnd. apply NoDup_cons_iff in Hnd. destruct Hnd as [Hnotin Hnd].
  cbn. destruct (named name r) eqn:Hr; [|apply IH; exact Hnd].
  apply named_iff in Hr. rewrite filter_absent; [apply le_n|].
  intros r' Hin Hn. apply Hnotin. rewrite Hr, <- Hn. apply in_map. exact Hin.
Qed.

Lemma replace_into_own (name : string) (v c : Z) (t : Table) :
  filter (named name) (rows (replace_into name v c t)) =
  [ {| id := seq t + 1; series_name := name; tvdb_id := v; created_at := c |} ].
Proof.
  cbn. rewrite filter_app, filter_own_removed. cbn. rewrite named_refl. reflexivity.
Qed.

Lemma replace_into_unique (name : string) (v c : Z) (t : Table) :
  unique_names t -> unique_names (replace_into name v c t).
Proof.
  intros Hu n. destruct (String.eqb_spec n name) as [->|Hne].
  - rewrite replace_into_own. apply le_n.
  - cbn. rewrite filter_app, length_app. cbn.
    replace (named n _) with false.
    + cbn. rewrite Nat.add_0_r.
      eapply Nat.le_trans; [apply filter_others_length | apply Hu].
    + symmetry. unfold named. cbn. apply String.eqb_neq. exact Hne.
Qed.

Lemma replace_into_select (name : string) (v c : Z) (t : Table) :
  select_by_name name (replace_into name v c t) =
  Some {| id := seq t + 1; series_name := name; tvdb_id := v; created_at := c |}.
Proof.
  unfold select_by_name. cbn. induction (rows t) as [|r l IH].
  - cbn. rewrite named_refl. reflexivity.
  - cbn. destruct (named name r) eqn:Hr; cbn; [exact IH|]. rewrite Hr. exact IH.
Qed.

(** ** The cache read *)

(** C1. With the store reachable and names unique: [TVDBCache.get name]
    returns [None], and does not raise, when no row is stored under
    exactly [name]; and when the configured window is one the datetime
    arithmetic of the read can hold, it returns [Some v] exactly when an
    entry stored under exactly [name] holds [v] and satisfies
    [now - created_at < expiry window], where [now] is the clock reading
    of the call, and [None] exactly when there is no such entry (no row
    for the name, or a row whose age has reached the window). The table
    is left as it was. *)
Theorem get_contract (E : Env) (w : World) (name : string) :
  db_reachable E (trace w) = true ->
  unique_names (table w) ->
  ((forall r, ~ entry_for name (table w) r) -> fst (TVDBCache.get E name w) = Ok None)
  /\ (cutoff_representable E (read_time E w) ->
      (forall v, fst (TVDBCache.get E name w) = Ok (Some v) <->
                 exists r, live_entry E (read_time E w) name (table w) r /\ tvdb_id r = v)
      /\ (fst (TVDBCache.get E name w) = Ok None <->
          ~ exists r, live_entry E (read_time E w) name (table w) r))
  /\ table (snd (TVDBCache.get E name w)) = table w.
Proof.
  intros Hdb Hu. split; [|split]; [| |apply get_keeps_table].
  - intros Hno. rewrite get_run, Hdb.
    destruct (select_by_name name (table w)) as [r0|] eqn:Hsel; [|reflexivity].
    exfalso. exact (Hno r0 (select_sound _ _ _ Hsel)).
  - intros Hrange. rewrite get_run, Hdb. unfold live_entry, read_time in *.
    rewrite (cutoff_ok _ _ Hrange).
    destruct (select_by_name name (table w)) as [r0|] eqn:Hsel; cbn [fst].
    + pose proof (select_sound _ _ _ Hsel) as Hent.
      destruct (Z.ltb_spec (clock E (EvConnect :: trace w) - expiry_window E) (created_at r0))
        as [Hlt|Hge].
      * split; [intros v; split|split].
        -- intros H. injection H as <-. exists r0. repeat split; try apply Hent. lia.
        -- intros [r [[Hr _] Hv]]. rewrite (select_complete _ _ _ Hu Hr) in Hsel.
           congruence.
        -- discriminate.
        -- intros Hno. exfalso. apply Hno. exists r0. split; [exact Hent | lia].
      * split; [intros v; split|split].
        -- discriminate.
        -- intros [r [[Hr Hage] _]]. rewrite (select_complete _ _ _ Hu Hr) in Hsel.
           injection Hsel as ->. lia.
        -- intros _ [r [Hr Hage]].
           rewrite (select_complete _ _ _ Hu Hr) in Hsel. injection Hsel as ->. lia.
        -- reflexivity.
    + split; [intros v; split|split].
      * discriminate.
      * intros [r [[Hr _] _]]. exfalso. exact (select_none _ _ Hsel r Hr).
      * intros _ [r [Hr _]]. exact (select_none _ _ Hsel r Hr).
      * reflexivity.
Qed.

Lemma get_contract_witness :
  db_reachable quiet_env (trace (world_of two_rows)) = true
  /\ unique_names (table (world_of two_rows))
  /\ cutoff_representable quiet_env (read_time quiet_env (world_of two_rows))
  /\ fst (TVDBCache.get quiet_env "Example" (world_of two_rows)) = Ok (Some 42)
  /\ fst (TVDBCache.get quiet_env "EXAMPLE" (world_of two_rows)) = Ok None
  /\ fst (TVDBCache.get huge_window "EXAMPLE" (world_of two_rows)) = Ok None.
Proof.
  assert (Hu : unique_names (table (world_of two_rows))).
  { apply NoDup_unique_names. cbn. repeat constructor; cbn; intuition discriminate. }
  assert (Hrange : cutoff_representable quiet_env (read_time quiet_env (world_of two_rows))).
  { vm_compute. repeat split; discriminate. }
  assert (Habsent : forall r, ~ entry_for "EXAMPLE" (table (world_of two_rows)) r).
  { intros r [Hin Hname]. cbn in Hin. destruct Hin as [<-|[<-|[]]]; discriminate Hname. }
  split; [reflexivity|]. split; [exact Hu|]. split; [exact Hrange|]. split; [|split].
  - apply (proj1 (proj1 (proj2 (get_contract quiet_env (world_of two_rows) "Example"
                                  eq_refl Hu)) Hrange) 42).
    exists {| id := 1; series_name := "Example"; tvdb_id := 42; created_at := today |}.
    unfold live_entry, entry_for. cbn.
    split; [split; [split; [left; reflexivity | reflexivity] | vm_compute; reflexivity]
           | reflexivity].
  - exact (proj1 (get_contract quiet_env (world_of two_rows) "EXAMPLE" eq_refl Hu) Habsent).
  - exact (proj1 (get_contract huge_window (world_of two_rows) "EXAMPLE" eq_refl Hu) Habsent).
Defined.

(** A window of 739923 days reaches back before the first datetime: a
    read that finds a row raises the overflow of the subtraction. *)
Example get_overflows_on_huge_window :
  fst (TVDBCache.get huge_window "Example" (world_of two_rows)) = Raise OverflowError.
Proof. reflexivity. Qed.

(** ** The cache write *)

Lemma set_keeps_unique (E : Env) (name : string) (v : Z) (w : World) :
  unique_names (table w) -> unique_names (table (snd (TVDBCache.set E name v w))).
Proof.
  intros Hu. rewrite set_run. destruct (db_reachable E (trace w)); [|exact Hu].
  destruct (in_int64 v); [|exact Hu]. cbn. apply replace_into_unique. exact Hu.
Qed.

Lemma reachable_unique (E : Env) (w : World) : reachable E w -> unique_names (table w).
Proof.
  induction 1 as [tr | name w _ IH | name v w _ IH].
  - intros name. cbn. apply le_0_n.
  - rewrite get_keeps_table. exact IH.
  - apply set_keeps_unique. exact IH.
Qed.

Lemma set_ok_inv (E : Env) (name : string) (v : Z) (w w' : World) :
  TVDBCache.set E name v w = (Ok tt, w') ->
  db_reachable E (trace w) = true /\ in_int64 v = true
  /\ table w' = replace_into name v (read_time E w) (table w)
  /\ trace w' = EvClock :: EvConnect :: trace w.
Proof.
  rewrite set_run. destruct (db_reachable E (trace w)); [|discriminate].
  destruct (in_int64 v); [|discriminate].
  intros H. injection H as <-. repeat split.
Qed.

(** C6. In every world reached from the freshly created table by cache
    reads and writes, each series name has at most one row; and two
    writes in a row under one name leave exactly one row for it, holding
    the second identifier and the timestamp of the second write. *)
Theorem single_entry_invariant (E : Env) (w : World) :
  reachable E w ->
  unique_names (table w)
  /\ forall name id1 id2 w1 w2,
       TVDBCache.set E name id1 w = (Ok tt, w1) ->
       TVDBCache.set E name id2 w1 = (Ok tt, w2) ->
       exists r, filter (named name) (rows (table w2)) = [r]
                 /\ tvdb_id r = id2
                 /\ created_at r = read_time E w1.
Proof.
  intros Hr. split; [apply reachable_unique with (E := E); exact Hr|].
  intros name id1 id2 w1 w2 _ H2.
  apply set_ok_inv in H2. destruct H2 as (_ & _ & Ht & _).
  rewrite Ht, replace_into_own. eexists. split; [reflexivity|]. split; reflexivity.
Qed.

Lemma single_entry_invariant_witness :
  reachable quiet_env start
  /\ exists r,
       filter (named "A")
         (rows (table (snd (TVDBCache.set quiet_env "A" 2
                              (snd (TVDBCache.set quiet_env "A" 1 start)))))) = [r]
       /\ tvdb_id r = 2 /\ created_at r = today + 3000000.
Proof.
  split; [apply reach_init|].
  exact (proj2 (single_entry_invariant quiet_env start (reach_init quiet_env []))
               "A" 1 2 _ _ eq_refl eq_refl).
Defined.

(** ** Running the resolver *)

Lemma status_check (code : Z) :
  ((400 <=? code) && (code <? 600) = true <-> failed_status code).
Proof. unfold failed_status. rewrite andb_true_iff, Z.leb_le, Z.ltb_lt. tauto. Qed.

Lemma status_passes (code : Z) :
  ~ failed_status code -> (400 <=? code) && (code <? 600) = false.
Proof.
  intros H. destruct ((400 <=? code) && (code <? 600)) eqn:Hb; [|reflexivity].
  exfalso. apply H, status_check, Hb.
Qed.

(** A read that found nothing usable hands over to the lookup API. *)
Lemma lookup_after_miss (E : Env) (name : string) (w w1 : World) :
  TVDBCache.get E name w = (Ok None, w1) ->
  lookup_series_by_name E name w =
  try_except (sonarr_request E name) (is_RequestException E)
             (fun _ => log Error ;; ret 0) w1.
Proof. intros H. unfold lookup_series_by_name, bind. rewrite H. reflexivity. Qed.

Lemma lookup_after_hit (E : Env) (name : string) (v : Z) (w w1 : World) :
  TVDBCache.get E name w = (Ok (Some v), w1) -> v <> 0 ->
  lookup_series_by_name E name w = (Ok v, w1).
Proof.
  intros H Hv. unfold lookup_series_by_name, bind. rewrite H.
  apply Z.eqb_neq in Hv. rewrite Hv. reflexivity.
Qed.

Lemma request_no_reply (E : Env) (name : string) (f : NetFailure) (w1 : World) :
  sonarr_lookup E (trace w1) name = NoReply f ->
  exists e, sonarr_request E name w1 = (Raise e, asked name w1)
            /\ is_RequestException E e = true.
Proof.
  intros H. unfold sonarr_request, bind, requests_get. rewrite H.
  destruct f; eexists; split; reflexivity.
Qed.

Lemma request_failed_status (E : Env) (name : string) (code : Z) (b : Body) (w1 : World) :
  sonarr_lookup E (trace w1) name = Reply code b -> failed_status code ->
  sonarr_request E name w1 = (Raise HTTPError, asked name w1).
Proof.
  intros H Hc. apply status_check in Hc.
  unfold sonarr_request, bind, requests_get, raise_for_status. rewrite H. cbn.
  rewrite Hc. reflexivity.
Qed.

Lemma request_decoded (E : Env) (name : string) (code : Z) (j : Json) (w1 : World) :
  sonarr_lookup E (trace w1) name = Reply code (Decoded j) -> ~ failed_status code ->
  sonarr_request E name w1 =
  if negb (truthy j)
  then (Ok 0, happened (EvLog Warning) (asked name w1))
  else (first <- lift (getitem_0 j) ;;
        field <- lift (getitem first "tvdbId") ;;
        tvdb <- as_int field ;;
        TVDBCache.set E name tvdb ;;
        ret tvdb) (asked name w1).
Proof.
  intros H Hc. apply status_passes in Hc.
  unfold sonarr_request, bind, requests_get, raise_for_status, response_json. rewrite H. cbn.
  rewrite Hc. cbn. destruct (truthy j); reflexivity.
Qed.

Lemma request_first_result (E : Env) (name : string) (code : Z) (first : Json)
    (rest : list Json) (tvdb : Z) (w1 : World) :
  sonarr_lookup E (trace w1) name = Reply code (Decoded (JList (first :: rest))) ->
  ~ failed_status code ->
  getitem first "tvdbId" = Ok (JInt tvdb) ->
  in_int64 tvdb = true ->
  db_reachable E (trace (asked name w1)) = true ->
  sonarr_request E name w1 =
  (Ok tvdb, {| table := replace_into name tvdb (read_time E (asked name w1)) (table w1);
               trace := EvClock :: EvConnect :: trace (asked name w1) |}).
Proof.
  intros H Hc Hf Hi Hdb. rewrite (request_decoded _ _ _ _ _ H Hc).
  cbn [truthy negb]. unfold bind, lift. cbn [getitem_0]. rewrite Hf.
  cbn [as_int]. unfold ret at 1. rewrite set_run, Hdb, Hi. reflexivity.
Qed.

Lemma get_ok_inv (E : Env) (name : string) (c : option Z) (w w1 : World) :
  TVDBCache.get E name w = (Ok c, w1) ->
  table w1 = table w
  /\ (trace w1 = EvConnect :: trace w \/ trace w1 = EvClock :: EvConnect :: trace w).
Proof.
  rewrite get_run. destruct (db_reachable E (trace w)); [|discriminate].
  destruct (select_by_name name (table w)); intros H; injection H as _ <-; cbn; auto.
Qed.

Lemma get_makes_no_call (E : Env) (name : string) (c : option Z) (w w1 : World) :
  TVDBCache.get E name w = (Ok c, w1) -> sonarr_calls w1 = sonarr_calls w.
Proof.
  intros H. apply get_ok_inv in H. destruct H as [_ [Ht|Ht]];
    unfold sonarr_calls; rewrite Ht; reflexivity.
Qed.

(** ** The resolver *)

(** C2, as the code has it. When the cache read returns a stored
    identifier other than 0, [lookup_series_by_name] returns that value
    in the very world the read ended in: nothing is written and the
    lookup API is not called. *)
Theorem cache_hit_short_circuit (E : Env) (name : string) (v : Z) (w w1 : World) :
  TVDBCache.get E name w = (Ok (Some v), w1) ->
  v <> 0 ->
  lookup_series_by_name E name w = (Ok v, w1)
  /\ table w1 = table w
  /\ sonarr_calls w1 = sonarr_calls w.
Proof.
  intros Hget Hv. split; [apply lookup_after_hit; assumption|].
  split; [apply (get_ok_inv _ _ _ _ _ Hget) | apply (get_makes_no_call _ _ _ _ _ Hget)].
Qed.

Lemma cache_hit_short_circuit_witness :
  TVDBCache.get (finds 7) "Example" (world_of two_rows)
  = (Ok (Some 42), happened EvClock (happened EvConnect (world_of two_rows)))
  /\ 42 <> 0
  /\ fst (lookup_series_by_name (finds 7) "Example" (world_of two_rows)) = Ok 42
  /\ sonarr_calls (snd (lookup_series_by_name (finds 7) "Example" (world_of two_rows))) = [].
Proof.
  assert (Hne : 42 <> 0) by discriminate.
  destruct (cache_hit_short_circuit (finds 7) "Example" 42 (world_of two_rows) _ eq_refl Hne)
    as (Hrun & _ & Hcalls).
  split; [reflexivity|]. split; [exact Hne|].
  rewrite Hrun. split; [reflexivity | exact Hcalls].
Defined.

(** C2, as stated, fails on a cached 0: the read reports the valid entry,
    yet the resolver asks the lookup API and returns what it answers. *)
Lemma cache_hit_zero_counterexample :
  fst (TVDBCache.get (finds 7) "A" (world_of stale_zero)) = Ok (Some 0)
  /\ fst (lookup_series_by_name (finds 7) "A" (world_of stale_zero)) = Ok 7
  /\ fst (lookup_series_by_name (finds 7) "A" (world_of stale_zero)) <> Ok 0
  /\ sonarr_calls (snd (lookup_series_by_name (finds 7) "A" (world_of stale_zero)))
     = [EvSonarr "A"]
  /\ sonarr_calls (world_of stale_zero) = [].
Proof.
  split; [reflexivity|]. split; [reflexivity|]. split; [discriminate|].
  split; reflexivity.
Qed.

(** C3. After a cache miss, when the lookup call fails (no response, or a
    failed status) or answers with an empty list, [lookup_series_by_name]
    returns 0, does not raise, and leaves the table as it was. *)
Theorem failure_sentinel (E : Env) (name : string) (w w1 : World) :
  TVDBCache.get E name w = (Ok None, w1) ->
  lookup_failed (sonarr_lookup E (trace w1) name)
    \/ lookup_empty (sonarr_lookup E (trace w1) name) ->
  exists w2, lookup_series_by_name E name w = (Ok 0, w2) /\ table w2 = table w.
Proof.
  intros Hget Hreply. rewrite (lookup_after_miss _ _ _ _ Hget).
  pose proof (proj1 (get_ok_inv _ _ _ _ _ Hget)) as Htab.
  unfold try_except.
  destruct (sonarr_lookup E (trace w1) name) as [f|code b] eqn:Hr.
  - destruct (request_no_reply _ _ _ _ Hr) as (e & -> & ->).
    eexists. split; [reflexivity | exact Htab].
  - destruct Hreply as [Hbad|Hempty].
    + rewrite (request_failed_status _ _ _ _ _ Hr Hbad). cbn.
      eexists. split; [reflexivity | exact Htab].
    + destruct b as [|j]; [destruct Hempty|].
      destruct j as [| | | |l|]; try destruct Hempty.
      destruct l; [|destruct Hempty].
      rewrite (request_decoded _ _ _ _ _ Hr Hempty). cbn.
      eexists. split; [reflexivity | exact Htab].
Qed.

Lemma failure_sentinel_witness :
  TVDBCache.get times_out "A" start = (Ok None, happened EvConnect start)
  /\ lookup_failed (sonarr_lookup times_out (trace (happened EvConnect start)) "A")
  /\ fst (lookup_series_by_name times_out "A" start) = Ok 0
  /\ table (snd (lookup_series_by_name times_out "A" start)) = empty_table.
Proof.
  assert (Hf : lookup_failed (sonarr_lookup times_out (trace (happened EvConnect start)) "A"))
    by exact I.
  destruct (failure_sentinel times_out "A" start _ eq_refl (or_introl Hf)) as (w2 & Hrun & Ht).
  split; [reflexivity|]. split; [exact Hf|]. rewrite Hrun. split; [reflexivity | exact Ht].
Defined.

Lemma resolve_first_run (E : Env) (name : string) (w w1 : World) (first : Json)
    (rest : list Json) (tvdb : Z) :
  TVDBCache.get E name w = (Ok None, w1) ->
  lookup_results (sonarr_lookup E (trace w1) name) first rest ->
  getitem first "tvdbId" = Ok (JInt tvdb) ->
  in_int64 tvdb = true ->
  db_reachable E (trace (asked name w1)) = true ->
  lookup_series_by_name E name w =
  (Ok tvdb, {| table := replace_into name tvdb (read_time E (asked name w1)) (table w);
               trace := EvClock :: EvConnect :: trace (asked name w1) |}).
Proof.
  intros Hget (code & Hr & Hc) Hf Hi Hdb. rewrite (lookup_after_miss _ _ _ _ Hget).
  unfold try_except. rewrite (request_first_result _ _ _ _ _ _ _ Hr Hc Hf Hi Hdb).
  rewrite (proj1 (get_ok_inv _ _ _ _ _ Hget)). reflexivity.
Qed.

(** C4. After a cache miss, when the lookup call succeeds with the
    results [first :: rest] and [first] carries the identifier [tvdb] (an
    integer SQLite can hold) while the store is reachable,
    [lookup_series_by_name] returns [tvdb], whatever [rest] holds, and the
    table becomes the old one with the row for [name] replaced by one
    holding [tvdb] and the time of the write. *)
Theorem first_result_wins (E : Env) (name : string) (w w1 : World) (first : Json)
    (rest : list Json) (tvdb : Z) :
  TVDBCache.get E name w = (Ok None, w1) ->
  lookup_results (sonarr_lookup E (trace w1) name) first rest ->
  getitem first "tvdbId" = Ok (JInt tvdb) ->
  in_int64 tvdb = true ->
  db_reachable E (trace (asked name w1)) = true ->
  exists w2 r,
    lookup_series_by_name E name w = (Ok tvdb, w2)
    /\ table w2 = replace_into name tvdb (read_time E (asked name w1)) (table w)
    /\ filter (named name) (rows (table w2)) = [r]
    /\ written name tvdb (read_time E (asked name w1)) r.
Proof.
  intros Hget Hres Hf Hi Hdb.
  rewrite (resolve_first_run _ _ _ _ _ _ _ Hget Hres Hf Hi Hdb).
  eexists. eexists. split; [reflexivity|]. split; [reflexivity|].
  cbn [table]. rewrite replace_into_own. split; [reflexivity|]. repeat split.
Qed.

Lemma first_result_wins_witness :
  TVDBCache.get finds_several "Example" start = (Ok None, happened EvConnect start)
  /\ lookup_results
       (sonarr_lookup finds_several (trace (happened EvConnect start)) "Example")
       (JDict [("title", JStr "x"); ("tvdbId", JInt 42)])
       [ JDict [("title", JStr "y"); ("tvdbId", JInt 7)]; JDict [("title", JStr "z")] ]
  /\ getitem (JDict [("title", JStr "x"); ("tvdbId", JInt 42)]) "tvdbId" = Ok (JInt 42)
  /\ in_int64 42 = true
  /\ fst (lookup_series_by_name finds_several "Example" start) = Ok 42
  /\ select_by_name "Example"
       (table (snd (lookup_series_by_name finds_several "Example" start)))
     = Some {| id := 1; series_name := "Example"; tvdb_id := 42;
               created_at := today + 3000000 |}.
Proof.
  assert (Hres : lookup_results
            (sonarr_lookup finds_several (trace (happened EvConnect start)) "Example")
            (JDict [("title", JStr "x"); ("tvdbId", JInt 42)])
            [ JDict [("title", JStr "y"); ("tvdbId", JInt 7)]; JDict [("title", JStr "z")] ]).
  { exists 200. split; [reflexivity | status_ok]. }
  destruct (first_result_wins finds_several "Example" start _ _ _ 42
              eq_refl Hres eq_refl eq_refl eq_refl) as (w2 & r & Hrun & Ht & _).
  split; [reflexivity|]. split; [exact Hres|]. do 2 (split; [reflexivity|]).
  rewrite Hrun. split; [reflexivity|].
  cbn [snd]. rewrite Ht. reflexivity.
Defined.

(** C5. After a cache miss and a lookup whose first result carries the
    identifier [tvdb], [lookup_series_by_name] returns [tvdb]; and a later
    [TVDBCache.get] of the same name, made while the store is reachable,
    before the row is overwritten, at a time within the expiry window of
    the write and with a window the datetime arithmetic of that read can
    hold, returns [tvdb] again. *)
Theorem resolve_get_round_trip (E : Env) (name : string) (w w1 w3 : World) (first : Json)
    (rest : list Json) (tvdb : Z) :
  TVDBCache.get E name w = (Ok None, w1) ->
  lookup_results (sonarr_lookup E (trace w1) name) first rest ->
  getitem first "tvdbId" = Ok (JInt tvdb) ->
  in_int64 tvdb = true ->
  db_reachable E (trace (asked name w1)) = true ->
  select_by_name name (table w3)
    = select_by_name name (table (snd (lookup_series_by_name E name w))) ->
  db_reachable E (trace w3) = true ->
  cutoff_representable E (read_time E w3) ->
  read_time E w3 - read_time E (asked name w1) < expiry_window E ->
  fst (lookup_series_by_name E name w) = Ok tvdb
  /\ fst (TVDBCache.get E name w3) = Ok (Some tvdb).
Proof.
  intros Hget Hres Hf Hi Hdb Hsame Hdb3 Hrange Hage.
  rewrite (resolve_first_run _ _ _ _ _ _ _ Hget Hres Hf Hi Hdb) in *.
  split; [reflexivity|].
  cbn [snd table] in Hsame. rewrite replace_into_select in Hsame.
  unfold read_time in *.
  rewrite get_run, Hdb3, Hsame, (cutoff_ok _ _ Hrange). cbn [created_at tvdb_id fst].
  destruct (Z.ltb_spec (clock E (EvConnect :: trace w3) - expiry_window E)
                       (clock E (EvConnect :: trace (asked name w1)))) as [_|Hge];
    [reflexivity | lia].
Qed.

Lemma resolve_get_round_trip_witness :
  fst (lookup_series_by_name (finds 42) "Example" start) = Ok 42
  /\ fst (TVDBCache.get (finds 42) "Example"
            (snd (lookup_series_by_name (finds 42) "Example" start))) = Ok (Some 42).
Proof.
  assert (Hres : lookup_results
            (sonarr_lookup (finds 42) (trace (happened EvConnect start)) "Example")
            (JDict [("title", JStr "x"); ("tvdbId", JInt 42)]) []).
  { exists 200. split; [reflexivity | status_ok]. }
  apply (resolve_get_round_trip (finds 42) "Example" start (happened EvConnect start)
           (snd (lookup_series_by_name (finds 42) "Example" start))
           (JDict [("title", JStr "x"); ("tvdbId", JInt 42)]) [] 42
           eq_refl Hres eq_refl eq_refl eq_refl eq_refl eq_refl).
  - vm_compute. repeat split; discriminate.
  - vm_compute. reflexivity.
Defined.

(** ** Running the fetcher *)

Lemma collection_item_run (E : Env) (entry : Json) (name : string) (w : World) :
  has_name entry name ->
  collection_item E entry w =
  and_then (fun v => {| title := name; tvdbId := v |}) (lookup_series_by_name E name w).
Proof.
  intros Hn. unfold collection_item, bind, lift. rewrite Hn. cbn [as_str]. unfold ret at 1.
  destruct (lookup_series_by_name E name w) as [[v| e |] w']; reflexivity.
Qed.

Lemma collection_item_nameless (E : Env) (entry : Json) (e : Exn) (w : World) :
  getitem entry "name" = Raise e -> collection_item E entry w = (Raise e, w).
Proof. intros Hn. unfold collection_item, bind, lift. rewrite Hn. reflexivity. Qed.

Lemma comprehension_raise {A B : Type} (f : A -> M B) (x : A) (rest : list A) (e : Exn)
    (w w' : World) :
  f x w = (Raise e, w') -> comprehension f (x :: rest) w = (Raise e, w').
Proof. intros H. cbn. unfold bind. rewrite H. reflexivity. Qed.

(** The entries resolved in turn are a prefix of what the comprehension builds. *)
Lemma comprehension_prefix (E : Env) (pre : list Json) (names : list string) :
  Forall2 has_name pre names ->
  forall (rest : list Json) (ids : list Z) (w w1 : World),
    resolved_in_turn E w names ids w1 ->
    comprehension (collection_item E) (pre ++ rest) w =
    and_then (fun ys => items_of names ids ++ ys)
             (comprehension (collection_item E) rest w1).
Proof.
  induction 1 as [|entry name pre names Hn _ IH]; intros rest ids w w1 Hturn.
  - inversion Hturn; subst. cbn.
    destruct (comprehension (collection_item E) rest w1) as [[ys| e |] w']; reflexivity.
  - inversion Hturn as [|? ? ? v ids' w2 ? Hrun Hrest]; subst.
    cbn [app comprehension]. unfold bind at 1.
    rewrite (collection_item_run _ _ _ _ Hn), Hrun. cbn [and_then].
    unfold bind at 1. rewrite (IH rest ids' w2 w1 Hrest).
    destruct (comprehension (collection_item E) rest w1) as [[ys| e |] w']; reflexivity.
Qed.

Lemma resolved_lengths (E : Env) (w w1 : World) (names : list string) (ids : list Z) :
  resolved_in_turn E w names ids w1 -> List.length names = List.length ids.
Proof. induction 1; cbn; congruence. Qed.

Lemma items_of_titles (names : list string) (ids : list Z) :
  List.length names = List.length ids -> map title (items_of names ids) = names.
Proof.
  revert ids. induction names as [|n names IH]; intros [|v ids] H; try discriminate H.
  - reflexivity.
  - cbn. f_equal. apply IH. injection H as H. exact H.
Qed.

Lemma items_of_ids (names : list string) (ids : list Z) :
  List.length names = List.length ids -> map tvdbId (items_of names ids) = ids.
Proof.
  revert ids. induction names as [|n names IH]; intros [|v ids] H; try discriminate H.
  - reflexivity.
  - cbn. f_equal. apply IH. injection H as H. exact H.
Qed.

Lemma fetch_decoded (E : Env) (code : Z) (j : Json) (w : World) :
  bgm_collection E (trace w) = Reply code (Decoded j) -> ~ failed_status code ->
  get_bgm_collection E w =
  try_except (items <- lift (iterate j) ;; comprehension (collection_item E) items)
             is_Exception (fun _ => log Error ;; ret []) (happened EvBangumi w).
Proof.
  intros Hr Hc. apply status_passes in Hc.
  unfold get_bgm_collection, try_except, bind at 1 2 3, requests_get, raise_for_status,
    response_json.
  rewrite Hr. cbn [fst snd]. rewrite Hc. reflexivity.
Qed.

(** An exception met at an entry, after the entries before it were
    resolved, ends the fetch with the empty list. *)
Lemma fetch_aborts (E : Env) (code : Z) (pre post : list Json) (entry : Json)
    (names : list string) (ids : list Z) (e : Exn) (w w1 w3 : World) :
  bgm_collection E (trace w) = Reply code (Decoded (JList (pre ++ entry :: post))) ->
  ~ failed_status code ->
  Forall2 has_name pre names ->
  resolved_in_turn E (happened EvBangumi w) names ids w1 ->
  collection_item E entry w1 = (Raise e, w3) ->
  get_bgm_collection E w = (Ok [], happened (EvLog Error) w3).
Proof.
  intros Hr Hc Hpre Hturn Hitem. rewrite (fetch_decoded _ _ _ _ Hr Hc).
  unfold try_except, bind at 1, lift. cbn [iterate].
  rewrite (comprehension_prefix _ _ _ Hpre _ _ _ _ Hturn),
    (comprehension_raise _ _ _ _ _ _ Hitem).
  reflexivity.
Qed.

Lemma fetch_never_raises (E : Env) (w : World) (e : Exn) :
  fst (get_bgm_collection E w) <> Raise e.
Proof.
  unfold get_bgm_collection, try_except.
  match goal with |- context [match ?m w with _ => _ end] => destruct (m w) as [[l| e' |] w'] end;
    discriminate.
Qed.

Lemma route_of_fetch (E : Env) (items : list CollectionItem) (w w' : World) :
  get_bgm_collection E w = (Ok items, w') ->
  GET_watching_list E w = (Ok (jsonify items), w').
Proof.
  intros H. unfold GET_watching_list, flask_dispatch, try_except, get_list, bind.
  rewrite H. reflexivity.
Qed.

(** ** The collection fetcher and the route *)

(** C7, as the code has it. When the tracking service answers with a
    list of entries, each carrying a display name, and the resolver,
    called on those names in turn, returns (does not raise) with the
    identifiers [ids], [get_bgm_collection] returns one
    item per entry, in the order of the response: the titles are the
    display names and the identifiers are the resolver's results (0 for
    an unresolved name). *)
Theorem collection_mapping (E : Env) (w w' : World) (code : Z) (entries : list Json)
    (names : list string) (ids : list Z) :
  bgm_collection E (trace w) = Reply code (Decoded (JList entries)) ->
  ~ failed_status code ->
  Forall2 has_name entries names ->
  resolved_in_turn E (happened EvBangumi w) names ids w' ->
  exists items,
    get_bgm_collection E w = (Ok items, w')
    /\ List.length items = List.length entries
    /\ map title items = names
    /\ map tvdbId items = ids.
Proof.
  intros Hr Hc Hnames Hturn. exists (items_of names ids).
  pose proof (resolved_lengths _ _ _ _ _ Hturn) as Hlen.
  split; [|split; [|split]].
  - rewrite (fetch_decoded _ _ _ _ Hr Hc).
    unfold try_except, bind at 1, lift. cbn [iterate].
    rewrite <- (app_nil_r entries) at 1.
    rewrite (comprehension_prefix _ _ _ Hnames _ _ _ _ Hturn). cbn.
    rewrite app_nil_r. reflexivity.
  - rewrite <- (length_map title), (items_of_titles _ _ Hlen).
    symmetry. apply (Forall2_length Hnames).
  - apply items_of_titles, Hlen.
  - apply items_of_ids, Hlen.
Qed.

Lemma collection_mapping_witness :
  exists items,
    fst (get_bgm_collection example_env start) = Ok items
    /\ map title items = ["A"; "B"]
    /\ map tvdbId items = [1; 0].
Proof.
  assert (Hc : ~ failed_status 200) by status_ok.
  assert (Hnames : Forall2 has_name
            [JDict [("name", JStr "A")]; JDict [("name", JStr "B")]] ["A"; "B"]).
  { repeat constructor. }
  assert (Hturn : exists w', resolved_in_turn example_env (happened EvBangumi start)
                               ["A"; "B"] [1; 0] w').
  { eexists. eapply turn_next; [reflexivity|].
    eapply turn_next; [reflexivity|]. apply turn_done. }
  destruct Hturn as [w' Hturn].
  destruct (collection_mapping example_env start w' 200 _ _ _ eq_refl Hc Hnames Hturn)
    as (items & Hrun & _ & Ht & Hi).
  exists items. rewrite Hrun. split; [reflexivity|]. split; assumption.
Defined.

(** C7, as stated, fails: the tracking service answers with a list of two
    named entries, the store is unreachable, the resolver raises on the
    first entry, and the fetch returns no item instead of one per entry. *)
Lemma collection_mapping_counterexample :
  bgm_collection store_down (trace start)
  = Reply 200 (Decoded (JList [JDict [("name", JStr "A")]; JDict [("name", JStr "B")]]))
  /\ fst (lookup_series_by_name store_down "A" (happened EvBangumi start))
     = Raise OperationalError
  /\ fst (get_bgm_collection store_down start) = Ok []
  /\ List.length (@nil CollectionItem)
     <> List.length [JDict [("name", JStr "A")]; JDict [("name", JStr "B")]].
Proof.
  split; [reflexivity|]. split; [reflexivity|]. split; [reflexivity | discriminate].
Qed.

(** C8. On a failure contacting the tracking service (no response, a
    failed status, a body that is not JSON, a payload of the wrong shape)
    [get_bgm_collection] logs the error and returns the empty list, it
    does not raise; and [GET /watching-list] answers 200 with the body
    []. *)
Theorem fetch_degrades (E : Env) (w w1 : World) :
  fetch_fails E w w1 ->
  get_bgm_collection E w = (Ok [], happened (EvLog Error) w1)
  /\ GET_watching_list E w
     = (Ok {| status := 200; payload := Some [] |}, happened (EvLog Error) w1).
Proof.
  intros Hfail.
  assert (Hrun : get_bgm_collection E w = (Ok [], happened (EvLog Error) w1)).
  { destruct Hfail as [f Hr | code b Hr Hc | code Hr Hc | code j e Hr Hc Hit
                      | code j pre bad post names ids w1 e Hr Hc Hit Hpre Hturn Hbad].
    - unfold get_bgm_collection, try_except, bind at 1 2 3, requests_get.
      rewrite Hr. destruct f; reflexivity.
    - apply status_check in Hc.
      unfold get_bgm_collection, try_except, bind at 1 2 3, requests_get, raise_for_status.
      rewrite Hr. cbn [fst]. rewrite Hc. reflexivity.
    - apply status_passes in Hc.
      unfold get_bgm_collection, try_except, bind at 1 2 3, requests_get, raise_for_status,
        response_json.
      rewrite Hr. cbn [fst snd]. rewrite Hc. reflexivity.
    - rewrite (fetch_decoded _ _ _ _ Hr Hc). unfold try_except, bind at 1, lift.
      rewrite Hit. reflexivity.
    - rewrite (fetch_decoded _ _ _ _ Hr Hc). unfold try_except, bind at 1, lift.
      rewrite Hit, (comprehension_prefix _ _ _ Hpre _ _ _ _ Hturn),
        (comprehension_raise _ _ _ _ _ _ (collection_item_nameless E bad e w1 Hbad)).
      reflexivity. }
  split; [exact Hrun | apply route_of_fetch in Hrun; exact Hrun].
Qed.

Lemma fetch_degrades_witness :
  fetch_fails bangumi_down start (happened EvBangumi start)
  /\ fst (get_bgm_collection bangumi_down start) = Ok []
  /\ fst (GET_watching_list bangumi_down start) = Ok {| status := 200; payload := Some [] |}.
Proof.
  assert (Hf : fetch_fails bangumi_down start (happened EvBangumi start)).
  { apply (ff_no_reply bangumi_down start Unreachable). reflexivity. }
  destruct (fetch_degrades bangumi_down start _ Hf) as [H1 H2].
  split; [exact Hf|]. rewrite H1, H2. split; reflexivity.
Defined.

(** ** Exceptions that are not request errors *)

Lemma store_failure_escapes (E : Env) (name : string) (w1 w3 : World) :
  store_fails E name w1 w3 ->
  lookup_series_by_name E name w1 = (Raise OperationalError, w3) /\ table w3 = table w1.
Proof.
  intros [Hdb | w2 first rest tvdb Hget (code & Hr & Hc) Hf Hdb].
  - unfold lookup_series_by_name, bind. rewrite get_run, Hdb. split; reflexivity.
  - rewrite (lookup_after_miss _ _ _ _ Hget). unfold try_except.
    rewrite (request_decoded _ _ _ _ _ Hr Hc).
    cbn [truthy negb]. unfold bind, lift. cbn [getitem_0]. rewrite Hf.
    cbn [as_int]. unfold ret at 1. rewrite set_run, Hdb. cbn [is_RequestException].
    split; [reflexivity | apply (get_ok_inv _ _ _ _ _ Hget)].
Qed.

(** C9, as the code has it. A cache operation on an unreachable store
    raises the storage error; when that happens during a resolution, on
    the read or on the write, [lookup_series_by_name] lets it through
    instead of returning 0; the handler of [get_bgm_collection] then
    catches it, so the fetch returns the empty list and the route answers
    200 with the body []. *)
Theorem storage_failure_path (E : Env) (w w1 w3 : World) (code : Z) (pre post : list Json)
    (entry : Json) (names : list string) (ids : list Z) (name : string) :
  bgm_collection E (trace w) = Reply code (Decoded (JList (pre ++ entry :: post))) ->
  ~ failed_status code ->
  Forall2 has_name pre names ->
  resolved_in_turn E (happened EvBangumi w) names ids w1 ->
  has_name entry name ->
  store_fails E name w1 w3 ->
  (forall n v w0, db_reachable E (trace w0) = false ->
     fst (TVDBCache.get E n w0) = Raise OperationalError
     /\ fst (TVDBCache.set E n v w0) = Raise OperationalError)
  /\ lookup_series_by_name E name w1 = (Raise OperationalError, w3)
  /\ get_bgm_collection E w = (Ok [], happened (EvLog Error) w3)
  /\ GET_watching_list E w
     = (Ok {| status := 200; payload := Some [] |}, happened (EvLog Error) w3).
Proof.
  intros Hr Hc Hpre Hturn Hn Hfail.
  destruct (store_failure_escapes _ _ _ _ Hfail) as [Hrun _].
  assert (Hitem : collection_item E entry w1 = (Raise OperationalError, w3))
    by (rewrite (collection_item_run _ _ _ _ Hn), Hrun; reflexivity).
  pose proof (fetch_aborts _ _ _ _ _ _ _ _ _ _ _ Hr Hc Hpre Hturn Hitem) as Hfetch.
  split; [|split; [exact Hrun | split; [exact Hfetch | apply route_of_fetch, Hfetch]]].
  intros n v w0 Hdb. rewrite get_run, set_run, Hdb. split; reflexivity.
Qed.

Lemma storage_failure_path_witness :
  store_fails store_down "A" (happened EvBangumi start)
              (happened EvConnect (happened EvBangumi start))
  /\ fst (lookup_series_by_name store_down "A" (happened EvBangumi start))
     = Raise OperationalError
  /\ fst (get_bgm_collection store_down start) = Ok [].
Proof.
  assert (Hc : ~ failed_status 200) by status_ok.
  assert (Hf : store_fails store_down "A" (happened EvBangumi start)
                 (happened EvConnect (happened EvBangumi start)))
    by (apply fails_on_read; reflexivity).
  destruct (storage_failure_path store_down start _ _ 200 [] [JDict [("name", JStr "B")]]
              (JDict [("name", JStr "A")]) [] [] "A"
              eq_refl Hc (Forall2_nil _) (turn_done _ _) eq_refl Hf) as (_ & H1 & H2 & _).
  split; [exact Hf|]. rewrite H1, H2. split; reflexivity.
Defined.

(** C9, as stated, fails: with the store unreachable the read raises,
    and the fetch still returns an empty collection, served with 200. *)
Lemma storage_failure_masked_counterexample :
  fst (TVDBCache.get store_down "A" (happened EvBangumi start)) = Raise OperationalError
  /\ fst (get_bgm_collection store_down start) = Ok []
  /\ (forall e, fst (get_bgm_collection store_down start) <> Raise e)
  /\ fst (GET_watching_list store_down start) = Ok {| status := 200; payload := Some [] |}.
Proof.
  split; [reflexivity|]. split; [reflexivity|]. split; [discriminate | reflexivity].
Qed.

Lemma getitem_raises (j : Json) (k : string) :
  (forall v, getitem j k <> Ok v) ->
  exists e, getitem j k = Raise e /\ (e = KeyError \/ e = TypeError).
Proof.
  intros Hno. destruct j as [| | | | |d]; cbn in *;
    try (exists TypeError; split; [reflexivity | right; reflexivity]).
  destruct (assoc k d) as [v|]; [exfalso; apply (Hno v); reflexivity|].
  exists KeyError. split; [reflexivity | left; reflexivity].
Qed.

(** Subscripting a payload of the wrong shape raises before anything is written. *)
Lemma wrong_shape_raises (E : Env) (name : string) (j : Json) (w : World) :
  lacks_identifier j ->
  truthy j = true
  /\ exists e, (e = KeyError \/ e = TypeError)
     /\ (first <- lift (getitem_0 j) ;;
         field <- lift (getitem first "tvdbId") ;;
         tvdb <- as_int field ;;
         TVDBCache.set E name tvdb ;;
         ret tvdb) w = (Raise e, w).
Proof.
  intros Hj. destruct j as [|b|z|s|l|d]; cbn [lacks_identifier] in Hj.
  - discriminate Hj.
  - split; [exact Hj|]. exists TypeError. split; [right|]; reflexivity.
  - split; [exact Hj|]. exists TypeError. split; [right|]; reflexivity.
  - split; [exact Hj|]. destruct s as [|c s]; [discriminate Hj|].
    exists TypeError. split; [right|]; reflexivity.
  - destruct l as [|first rest]; [destruct Hj|]. split; [reflexivity|].
    destruct (getitem_raises _ _ Hj) as (e & He & Hkind).
    exists e. split; [exact Hkind|].
    unfold bind, lift. cbn [getitem_0]. rewrite He. reflexivity.
  - split; [exact Hj|]. destruct d; [discriminate Hj|].
    exists KeyError. split; [left|]; reflexivity.
Qed.

(** C10, as the code has it. When, for an entry of the collection, the
    cache misses and the lookup call succeeds with a payload that Python
    counts as true but that is not a list whose first result has the
    identifier field, the subscript raises a [KeyError] or a [TypeError];
    the resolver lets it through instead of returning 0, the handler of
    [get_bgm_collection] catches it, and the fetch returns the empty list
    in the world the failed lookup left: the entries after it are never
    looked up. *)
Theorem malformed_lookup_aborts (E : Env) (w w1 w2 : World) (code code' : Z)
    (pre post : list Json) (entry : Json) (names : list string) (ids : list Z)
    (name : string) (j : Json) :
  bgm_collection E (trace w) = Reply code (Decoded (JList (pre ++ entry :: post))) ->
  ~ failed_status code ->
  Forall2 has_name pre names ->
  resolved_in_turn E (happened EvBangumi w) names ids w1 ->
  has_name entry name ->
  TVDBCache.get E name w1 = (Ok None, w2) ->
  sonarr_lookup E (trace w2) name = Reply code' (Decoded j) ->
  ~ failed_status code' ->
  lacks_identifier j ->
  exists e,
    (e = KeyError \/ e = TypeError)
    /\ lookup_series_by_name E name w1 = (Raise e, asked name w2)
    /\ get_bgm_collection E w = (Ok [], happened (EvLog Error) (asked name w2)).
Proof.
  intros Hr Hc Hpre Hturn Hn Hget Hs Hc' Hj.
  destruct (wrong_shape_raises E name j (asked name w2) Hj) as (Htrue & e & Hkind & Hsub).
  assert (Hrun : lookup_series_by_name E name w1 = (Raise e, asked name w2)).
  { rewrite (lookup_after_miss _ _ _ _ Hget). unfold try_except.
    rewrite (request_decoded _ _ _ _ _ Hs Hc'), Htrue. cbn [negb]. rewrite Hsub.
    destruct Hkind as [-> | ->]; reflexivity. }
  exists e. split; [exact Hkind|]. split; [exact Hrun|].
  apply (fetch_aborts E code pre post entry names ids e w w1 (asked name w2)
           Hr Hc Hpre Hturn).
  rewrite (collection_item_run _ _ _ _ Hn), Hrun. reflexivity.
Qed.

Lemma malformed_lookup_aborts_witness :
  lacks_identifier (JList [JDict [("title", JStr "x")]])
  /\ fst (lookup_series_by_name (answers (JList [JDict [("title", JStr "x")]])) "A"
            (happened EvBangumi start)) = Raise KeyError
  /\ fst (get_bgm_collection (answers (JList [JDict [("title", JStr "x")]])) start) = Ok []
  /\ sonarr_calls (snd (get_bgm_collection (answers (JList [JDict [("title", JStr "x")]]))
                          start)) = [EvSonarr "A"].
Proof.
  assert (Hc : ~ failed_status 200) by status_ok.
  assert (Hj : lacks_identifier (JList [JDict [("title", JStr "x")]]))
    by (intros v; discriminate).
  destruct (malformed_lookup_aborts (answers (JList [JDict [("title", JStr "x")]]))
              start _ _ 200 200 [] [JDict [("name", JStr "B")]] (JDict [("name", JStr "A")])
              [] [] "A" _ eq_refl Hc (Forall2_nil _) (turn_done _ _) eq_refl eq_refl
              eq_refl Hc Hj) as (e & Hkind & Hrun & Hfetch).
  split; [exact Hj|]. rewrite Hfetch. split; [reflexivity|]. split; reflexivity.
Defined.

(** C10, as stated, fails on a payload that is not a list and that Python
    counts as false, here [null]: the resolver takes it for an empty
    result, the entry gets the identifier 0 and the next entry is looked
    up as well. *)
Lemma malformed_lookup_counterexample :
  fst (lookup_series_by_name (answers JNull) "A" (happened EvBangumi start)) = Ok 0
  /\ fst (get_bgm_collection (answers JNull) start)
     = Ok [ {| title := "A"; tvdbId := 0 |}; {| title := "B"; tvdbId := 0 |} ]
  /\ sonarr_calls (snd (get_bgm_collection (answers JNull) start))
     = [EvSonarr "B"; EvSonarr "A"].
Proof. split; [reflexivity|]. split; reflexivity. Qed.

(** * Further properties of the cache *)

Lemma find_other_name (n name : string) (new : Row) (l : list Row) :
  n <> name -> series_name new = name ->
  find (named n) (filter (fun r => negb (named name r)) l ++ [new]) = find (named n) l.
Proof.
  intros Hne Hnew. induction l as [|r l IH].
  - cbn. replace (named n new) with false; [reflexivity|].
    symmetry. unfold named. rewrite Hnew. apply String.eqb_neq. exact Hne.
  - cbn. destruct (named name r) eqn:Hr; cbn.
    + replace (named n r) with false; [exact IH|].
      apply named_iff in Hr. symmetry. unfold named. rewrite Hr.
      apply String.eqb_neq. exact Hne.
    + destruct (named n r); [reflexivity | exact IH].
Qed.

Lemma filter_other_name (n name : string) (new : Row) (l : list Row) :
  n <> name -> series_name new = name ->
  filter (named n) (filter (fun r => negb (named name r)) l ++ [new]) = filter (named n) l.
Proof.
  intros Hne Hnew. rewrite filter_app. cbn.
  replace (named n new) with false.
  - rewrite app_nil_r. induction l as [|r l IH]; [reflexivity|].
    cbn. destruct (named name r) eqn:Hr; cbn.
    + replace (named n r) with false; [exact IH|].
      apply named_iff in Hr. symmetry. unfold named. rewrite Hr.
      apply String.eqb_neq. exact Hne.
    + destruct (named n r); [f_equal|]; exact IH.
  - symmetry. unfold named. rewrite Hnew. apply String.eqb_neq. exact Hne.
Qed.

Lemma replace_into_other (n name : string) (v c : Z) (t : Table) :
  n <> name ->
  select_by_name n (replace_into name v c t) = select_by_name n t
  /\ rows_of n (replace_into name v c t) = rows_of n t.
Proof.
  intros Hne. split.
  - apply find_other_name; [exact Hne | reflexivity].
  - apply filter_other_name; [exact Hne | reflexivity].
Qed.

(** X1. A write under one name leaves the rows stored under every other
    name exactly as they were, so a read of another name finds the same
    row as before the write. *)
Theorem set_leaves_other_names (E : Env) (name n : string) (v : Z) (w w' : World) :
  TVDBCache.set E name v w = (Ok tt, w') ->
  n <> name ->
  rows_of n (table w') = rows_of n (table w)
  /\ select_by_name n (table w') = select_by_name n (table w).
Proof.
  intros Hset Hne. apply set_ok_inv in Hset. destruct Hset as (_ & _ & -> & _).
  destruct (replace_into_other n name v (read_time E w) (table w) Hne) as [Hs Hr].
  split; assumption.
Qed.

Lemma set_leaves_other_names_witness :
  rows_of "B" (table (snd (TVDBCache.set quiet_env "A" 5 (world_of three_rows))))
  = [ {| id := 2; series_name := "B"; tvdb_id := 2; created_at := 10 |} ]
  /\ rows_of "A" (table (snd (TVDBCache.set quiet_env "A" 5 (world_of three_rows))))
     = [ {| id := 5; series_name := "A"; tvdb_id := 5; created_at := today + 1000000 |} ].
Proof.
  assert (Hne : "B" <> "A") by discriminate.
  destruct (set_leaves_other_names quiet_env "A" "B" 5 (world_of three_rows)
              (snd (TVDBCache.set quiet_env "A" 5 (world_of three_rows))) eq_refl Hne)
    as [Hrows _].
  split; [rewrite Hrows|]; reflexivity.
Defined.

(** X2. A write that raises changes nothing in the table; it raises the
    storage error exactly when the store is unreachable, and the overflow
    error exactly when the store is reachable and the identifier does not
    fit a signed 64-bit integer. *)
Theorem set_failure_changes_nothing (E : Env) (name : string) (v : Z) (w : World) (e : Exn) :
  fst (TVDBCache.set E name v w) = Raise e ->
  table (snd (TVDBCache.set E name v w)) = table w
  /\ ((e = OperationalError /\ db_reachable E (trace w) = false)
      \/ (e = OverflowError /\ db_reachable E (trace w) = true /\ in_int64 v = false)).
Proof.
  rewrite set_run. destruct (db_reachable E (trace w)).
  - destruct (in_int64 v); cbn; [discriminate|].
    intros H. injection H as <-. split; [reflexivity | right; repeat split].
  - cbn. intros H. injection H as <-. split; [reflexivity | left; split; reflexivity].
Qed.

Lemma set_failure_changes_nothing_witness :
  fst (TVDBCache.set quiet_env "A" (2 ^ 63) (world_of two_rows)) = Raise OverflowError
  /\ table (snd (TVDBCache.set quiet_env "A" (2 ^ 63) (world_of two_rows))) = two_rows.
Proof.
  destruct (set_failure_changes_nothing quiet_env "A" (2 ^ 63) (world_of two_rows)
              OverflowError eq_refl) as [Ht _].
  split; [reflexivity | exact Ht].
Defined.

(** Deleting rows keeps the remaining ids pairwise distinct. *)
Lemma ids_distinct_after_delete (keep : Row -> bool) (l : list Row) :
  NoDup (map id l) -> NoDup (map id (filter keep l)).
Proof.
  intros Hnd. induction l as [|r l IH]; [exact Hnd|].
  cbn in Hnd. apply NoDup_cons_iff in Hnd. destruct Hnd as [Hnew Hnd].
  cbn. destruct (keep r); [|exact (IH Hnd)].
  cbn. apply NoDup_cons; [|exact (IH Hnd)].
  intros Hin. apply Hnew. apply in_map_iff in Hin. destruct Hin as (r' & Hid & Hin).
  apply in_map_iff. exists r'. split; [exact Hid|]. apply filter_In in Hin. apply Hin.
Qed.

Lemma replace_into_ids (name : string) (v c : Z) (t : Table) :
  ids_fresh t -> ids_fresh (replace_into name v c t).
Proof.
  intros (Hnd & Hseq & Hall). unfold ids_fresh. cbn [rows seq replace_into].
  rewrite Forall_forall in Hall. split; [|split; [lia|]].
  - rewrite map_app. cbn. apply NoDup_app.
    + apply ids_distinct_after_delete. exact Hnd.
    + repeat constructor. intros [].
    + intros i Hin [<-|[]]. apply in_map_iff in Hin. destruct Hin as (r & Hr & Hin).
      apply filter_In in Hin. destruct Hin as [Hin _]. specialize (Hall r Hin). lia.
  - apply Forall_app. split.
    + rewrite Forall_forall. intros r Hin. apply filter_In in Hin.
      destruct Hin as [Hin _]. specialize (Hall r Hin). lia.
    + repeat constructor; cbn; lia.
Qed.

Lemma reachable_ids (E : Env) (w : World) : reachable E w -> ids_fresh (table w).
Proof.
  induction 1 as [tr | name w _ IH | name v w _ IH].
  - unfold ids_fresh. cbn. split; [apply NoDup_nil | split; [lia | apply Forall_nil]].
  - rewrite get_keeps_table. exact IH.
  - rewrite set_run. destruct (db_reachable E (trace w)); [|exact IH].
    destruct (in_int64 v); [|exact IH]. cbn. apply replace_into_ids. exact IH.
Qed.

(** X3. In every world reached from the freshly created table by cache
    reads and writes the row ids are pairwise distinct, positive and not
    above the sequence counter; and a write gives its row an id larger
    than every id in the table before it, so an id is never handed out
    twice. *)
Theorem ids_never_reused (E : Env) (w : World) :
  reachable E w ->
  ids_fresh (table w)
  /\ forall name v w',
       TVDBCache.set E name v w = (Ok tt, w') ->
       exists r, rows_of name (table w') = [r]
                 /\ forall r0, In r0 (rows (table w)) -> id r0 < id r.
Proof.
  intros Hr. pose proof (reachable_ids E w Hr) as Hids. split; [exact Hids|].
  intros name v w' Hset. apply set_ok_inv in Hset. destruct Hset as (_ & _ & -> & _).
  unfold rows_of. rewrite replace_into_own. eexists. split; [reflexivity|].
  intros r0 Hin. destruct Hids as (_ & _ & Hall). rewrite Forall_forall in Hall.
  specialize (Hall r0 Hin). cbn. lia.
Qed.

Lemma ids_never_reused_witness :
  reachable quiet_env
    (snd (TVDBCache.set quiet_env "A" 2 (snd (TVDBCache.set quiet_env "A" 1 start))))
  /\ map id (rows (table (snd (TVDBCache.set quiet_env "A" 3
               (snd (TVDBCache.set quiet_env "A" 2
                  (snd (TVDBCache.set quiet_env "A" 1 start)))))))) = [3]
  /\ ids_fresh (table (snd (TVDBCache.set quiet_env "A" 2
                              (snd (TVDBCache.set quiet_env "A" 1 start))))).
Proof.
  assert (Hr : reachable quiet_env
            (snd (TVDBCache.set quiet_env "A" 2 (snd (TVDBCache.set quiet_env "A" 1 start)))))
    by (do 2 apply reach_set; apply reach_init).
  destruct (ids_never_reused quiet_env _ Hr) as [Hids _].
  split; [exact Hr|]. split; [reflexivity | exact Hids].
Defined.



(** * Further properties of the resolver *)

Lemma getitem_0_not_request (E : Env) (j : Json) (e : Exn) :
  getitem_0 j = Raise e -> is_RequestException E e = false.
Proof.
  destruct j as [| | |s|l|d]; cbn; try (intros H; injection H as <-; reflexivity).
  - destruct s; intros H; [injection H as <-; reflexivity | discriminate H].
  - destruct l; intros H; [injection H as <-; reflexivity | discriminate H].
Qed.

Lemma getitem_not_request (E : Env) (j : Json) (k : string) (e : Exn) :
  getitem j k = Raise e -> is_RequestException E e = false.
Proof.
  destruct j as [| | | | |d]; cbn; try (intros H; injection H as <-; reflexivity).
  destruct (assoc k d); intros H; [discriminate H | injection H as <-; reflexivity].
Qed.

Lemma request_undecodable (E : Env) (name : string) (code : Z) (w1 : World) :
  sonarr_lookup E (trace w1) name = Reply code Undecodable -> ~ failed_status code ->
  sonarr_request E name w1 = (Raise JSONDecodeError, asked name w1).
Proof.
  intros H Hc. apply status_passes in Hc.
  unfold sonarr_request, bind, requests_get, raise_for_status, response_json. rewrite H. cbn.
  rewrite Hc. reflexivity.
Qed.

Lemma ask_cases (E : Env) (name : string) (w1 : World) :
  ask_result E name w1
    (try_except (sonarr_request E name) (is_RequestException E)
                (fun _ => log Error ;; ret 0) w1).
Proof.
  unfold try_except.
  destruct (sonarr_lookup E (trace w1) name) as [f|code b] eqn:Hr.
  - destruct (request_no_reply _ _ _ _ Hr) as (e & -> & ->). apply (ask_sentinel _ _ _ Error).
  - destruct ((400 <=? code) && (code <? 600)) eqn:Hb.
    + apply status_check in Hb. rewrite (request_failed_status _ _ _ _ _ Hr Hb).
      apply (ask_sentinel _ _ _ Error).
    + assert (Hc : ~ failed_status code)
        by (intros Hbad; apply status_check in Hbad; congruence).
      destruct b as [|j].
      * rewrite (request_undecodable _ _ _ _ Hr Hc).
        destruct (is_RequestException E JSONDecodeError) eqn:Hx;
          [apply (ask_sentinel _ _ _ Error) | apply ask_escapes; exact Hx].
      * rewrite (request_decoded _ _ _ _ _ Hr Hc).
        destruct (truthy j); cbn [negb]; [|apply (ask_sentinel _ _ _ Warning)].
        unfold bind at 1, lift at 1.
        destruct (getitem_0 j) as [first|e|] eqn:H0.
        -- unfold bind at 1, lift at 1.
           destruct (getitem first "tvdbId") as [field|e|] eqn:Hf.
           ++ unfold bind at 1.
              destruct field as [| |z| | |]; cbn [as_int]; try apply ask_untyped.
              unfold ret at 1. unfold bind at 1. rewrite set_run.
              destruct (db_reachable E (trace (asked name w1))); [|apply ask_store_down].
              destruct (in_int64 z);
                [exact (ask_written E name w1 z) | exact (ask_overflow E name w1)].
           ++ rewrite (getitem_not_request E _ _ _ Hf). apply ask_escapes.
              apply (getitem_not_request E _ _ _ Hf).
           ++ apply ask_untyped.
        -- rewrite (getitem_0_not_request E _ _ H0). apply ask_escapes.
           apply (getitem_0_not_request E _ _ H0).
        -- apply ask_untyped.
Qed.

Lemma get_never_untyped (E : Env) (name : string) (w w1 : World) :
  TVDBCache.get E name w <> (Untyped, w1).
Proof.
  rewrite get_run. destruct (db_reachable E (trace w)); [|discriminate].
  destruct (select_by_name name (table w)); [|discriminate].
  destruct (cutoff_cases E (clock E (EvConnect :: trace w))) as [-> | ->]; discriminate.
Qed.

(** A read that raises: the storage error or the overflow of the
    datetime arithmetic, with nothing written and nothing asked. *)
Lemma get_raise_inv (E : Env) (name : string) (e : Exn) (w w1 : World) :
  TVDBCache.get E name w = (Raise e, w1) ->
  is_RequestException E e = false
  /\ table w1 = table w
  /\ sonarr_calls w1 = sonarr_calls w
  /\ bangumi_calls w1 = bangumi_calls w.
Proof.
  rewrite get_run. destruct (db_reachable E (trace w)).
  - destruct (select_by_name name (table w)); [|discriminate].
    destruct (cutoff_cases E (clock E (EvConnect :: trace w))) as [-> | ->]; [discriminate|].
    intros H. injection H as <- <-. repeat split.
  - intros H. injection H as <- <-. repeat split.
Qed.

Lemma lookup_cases (E : Env) (name : string) (w : World) :
  lookup_result E name w (lookup_series_by_name E name w).
Proof.
  unfold lookup_series_by_name, bind. cbv zeta.
  destruct (TVDBCache.get E name w) as [[c|e|] w1] eqn:Hget.
  - destruct c as [v|].
    + destruct (Z.eqb_spec v 0) as [->|Hv]; cbn [negb].
      * apply (res_ask E name w (Some 0) w1); [exact Hget | right; reflexivity | apply ask_cases].
      * apply res_hit; assumption.
    + apply (res_ask E name w None w1); [exact Hget | left; reflexivity | apply ask_cases].
  - apply res_read_raises. exact Hget.
  - exfalso. exact (get_never_untyped _ _ _ _ Hget).
Qed.

Lemma get_some_inv (E : Env) (name : string) (v : Z) (w w1 : World) :
  TVDBCache.get E name w = (Ok (Some v), w1) ->
  exists r, select_by_name name (table w1) = Some r /\ tvdb_id r = v.
Proof.
  intros H. pose proof (proj1 (get_ok_inv _ _ _ _ _ H)) as Ht. rewrite Ht.
  rewrite get_run in H. destruct (db_reachable E (trace w)); [|discriminate H].
  destruct (select_by_name name (table w)) as [r|]; [|discriminate H].
  exists r. split; [reflexivity|].
  destruct (expiry_cutoff E _) as [cutoff|e|]; try discriminate H.
  destruct (cutoff <? created_at r); [|discriminate H]. injection H as H _. exact H.
Qed.

(** X5. No exception of the request family leaves the resolver: whatever
    it raises is something the handler for request errors does not
    accept. *)
Theorem resolver_lets_no_request_error_out (E : Env) (name : string) (w : World) (e : Exn) :
  fst (lookup_series_by_name E name w) = Raise e ->
  is_RequestException E e = false.
Proof.
  intros H. destruct (lookup_cases E name w) as [e0 w1 Hget | v w1 Hget Hv | c w1 r Hget Hc Hask].
  - cbn in H. injection H as <-. apply (get_raise_inv _ _ _ _ _ Hget).
  - discriminate H.
  - destruct Hask; cbn in H; try discriminate H; injection H as <-;
      [assumption | reflexivity | reflexivity].
Qed.

Lemma resolver_lets_no_request_error_out_witness :
  fst (lookup_series_by_name (answers (JDict [("error", JStr "x")])) "A" start) = Raise KeyError
  /\ is_RequestException (answers (JDict [("error", JStr "x")])) KeyError = false.
Proof.
  split; [reflexivity|].
  apply (resolver_lets_no_request_error_out (answers (JDict [("error", JStr "x")])) "A" start).
  reflexivity.
Defined.

Lemma get_trace_inv (E : Env) (name : string) (c : option Z) (w w1 : World) :
  TVDBCache.get E name w = (Ok c, w1) ->
  sonarr_calls w1 = sonarr_calls w /\ bangumi_calls w1 = bangumi_calls w.
Proof.
  intros H. apply get_ok_inv in H. destruct H as [_ [Ht|Ht]];
    unfold sonarr_calls, bangumi_calls; rewrite Ht; split; reflexivity.
Qed.

(** X6. One call of the resolver asks the lookup API at most once, and
    only with the series name it was given as the search term. *)
Theorem resolver_asks_at_most_once (E : Env) (name : string) (w : World) :
  sonarr_calls (snd (lookup_series_by_name E name w)) = sonarr_calls w
  \/ sonarr_calls (snd (lookup_series_by_name E name w)) = EvSonarr name :: sonarr_calls w.
Proof.
  destruct (lookup_cases E name w) as [e0 w1 Hget | v w1 Hget Hv | c w1 r Hget Hc Hask].
  - left. apply (get_raise_inv _ _ _ _ _ Hget).
  - left. apply (get_trace_inv _ _ _ _ _ Hget).
  - right. destruct (get_trace_inv _ _ _ _ _ Hget) as [Hs _].
    destruct Hask; unfold sonarr_calls in *; cbn; rewrite Hs; reflexivity.
Qed.

(** X7. Whatever a call of the resolver comes to, the rows stored under
    every other series name are left exactly as they were. *)
Theorem resolver_leaves_other_names (E : Env) (name n : string) (w : World) :
  n <> name ->
  rows_of n (table (snd (lookup_series_by_name E name w))) = rows_of n (table w).
Proof.
  intros Hne.
  destruct (lookup_cases E name w) as [e0 w1 Hget | v w1 Hget Hv | c w1 r Hget Hc Hask].
  - cbn [snd]. destruct (get_raise_inv _ _ _ _ _ Hget) as (_ & -> & _). reflexivity.
  - cbn. rewrite (proj1 (get_ok_inv _ _ _ _ _ Hget)). reflexivity.
  - pose proof (proj1 (get_ok_inv _ _ _ _ _ Hget)) as Ht.
    destruct Hask; cbn [snd table happened asked]; try (rewrite Ht; reflexivity).
    rewrite (proj2 (replace_into_other n name _ _ _ Hne)), Ht. reflexivity.
Qed.

Lemma resolver_leaves_other_names_witness :
  rows_of "B" (table (snd (lookup_series_by_name (finds 8) "D" (world_of three_rows))))
  = [ {| id := 2; series_name := "B"; tvdb_id := 2; created_at := 10 |} ]
  /\ rows_of "D" (table (snd (lookup_series_by_name (finds 8) "D" (world_of three_rows))))
     = [ {| id := 5; series_name := "D"; tvdb_id := 8; created_at := today + 3000000 |} ].
Proof.
  assert (Hne : "B" <> "D") by discriminate.
  split; [|reflexivity].
  rewrite (resolver_leaves_other_names (finds 8) "D" "B" (world_of three_rows) Hne).
  reflexivity.
Defined.

(** X8. A result other than 0 is always backed by the cache: when the
    resolver returns [v <> 0], the table it leaves holds a row for the
    name with the identifier [v]. *)
Theorem nonzero_result_is_cached (E : Env) (name : string) (v : Z) (w w' : World) :
  lookup_series_by_name E name w = (Ok v, w') ->
  v <> 0 ->
  exists r, select_by_name name (table w') = Some r /\ tvdb_id r = v.
Proof.
  intros Hrun Hv. pose proof (lookup_cases E name w) as Hcases. rewrite Hrun in Hcases.
  inversion Hcases as [e0 w1 Hget | v0 w1 Hget Hv0 | c w1 r Hget Hc Hask]; subst.
  - apply (get_some_inv _ _ _ _ _ Hget).
  - inversion Hask; subst; [contradiction Hv; reflexivity|].
    cbn [table]. rewrite replace_into_select. eexists. split; reflexivity.
Qed.

Lemma nonzero_result_is_cached_witness :
  lookup_series_by_name (finds 8) "D" (world_of three_rows)
  = (Ok 8, snd (lookup_series_by_name (finds 8) "D" (world_of three_rows)))
  /\ exists r, select_by_name "D"
                 (table (snd (lookup_series_by_name (finds 8) "D" (world_of three_rows))))
               = Some r /\ tvdb_id r = 8.
Proof.
  assert (Hne : 8 <> 0) by discriminate.
  split; [reflexivity|].
  exact (nonzero_result_is_cached (finds 8) "D" 8 (world_of three_rows)
           (snd (lookup_series_by_name (finds 8) "D" (world_of three_rows))) eq_refl Hne).
Defined.

Lemma lookup_after_zero (E : Env) (name : string) (w w1 : World) :
  TVDBCache.get E name w = (Ok (Some 0), w1) ->
  lookup_series_by_name E name w =
  try_except (sonarr_request E name) (is_RequestException E)
             (fun _ => log Error ;; ret 0) w1.
Proof. intros H. unfold lookup_series_by_name, bind. rewrite H. reflexivity. Qed.

(** X9. A cached 0 is resolved again. When the read returns the stored
    identifier 0 and the lookup call succeeds with a first result that
    carries the identifier [tvdb], the resolver returns [tvdb] after one
    call to the lookup API and replaces the row holding 0 by one holding
    [tvdb]. *)
Theorem cached_zero_is_resolved_again (E : Env) (name : string) (w w1 : World)
    (first : Json) (rest : list Json) (tvdb : Z) :
  TVDBCache.get E name w = (Ok (Some 0), w1) ->
  lookup_results (sonarr_lookup E (trace w1) name) first rest ->
  getitem first "tvdbId" = Ok (JInt tvdb) ->
  in_int64 tvdb = true ->
  db_reachable E (trace (asked name w1)) = true ->
  exists w2 r,
    lookup_series_by_name E name w = (Ok tvdb, w2)
    /\ sonarr_calls w2 = EvSonarr name :: sonarr_calls w
    /\ rows_of name (table w2) = [r]
    /\ written name tvdb (read_time E (asked name w1)) r.
Proof.
  intros Hget (code & Hr & Hc) Hf Hi Hdb. rewrite (lookup_after_zero _ _ _ _ Hget).
  unfold try_except. rewrite (request_first_result _ _ _ _ _ _ _ Hr Hc Hf Hi Hdb).
  eexists. eexists. split; [reflexivity|]. split.
  - unfold sonarr_calls. cbn. f_equal. apply (get_makes_no_call _ _ _ _ _ Hget).
  - unfold rows_of. cbn [table]. rewrite replace_into_own. split; [reflexivity|].
    repeat split.
Qed.

Lemma cached_zero_is_resolved_again_witness :
  TVDBCache.get (finds 7) "A" (world_of stale_zero)
  = (Ok (Some 0), happened EvClock (happened EvConnect (world_of stale_zero)))
  /\ fst (lookup_series_by_name (finds 7) "A" (world_of stale_zero)) = Ok 7
  /\ map tvdb_id (rows (table (snd (lookup_series_by_name (finds 7) "A"
                                     (world_of stale_zero))))) = [7].
Proof.
  assert (Hres : lookup_results
            (sonarr_lookup (finds 7)
               (trace (happened EvClock (happened EvConnect (world_of stale_zero)))) "A")
            (JDict [("title", JStr "x"); ("tvdbId", JInt 7)]) []).
  { exists 200. split; [reflexivity | status_ok]. }
  destruct (cached_zero_is_resolved_again (finds 7) "A" (world_of stale_zero) _ _ _ 7
              eq_refl Hres eq_refl eq_refl eq_refl) as (w2 & r & Hrun & _).
  split; [reflexivity|]. split; [rewrite Hrun|]; reflexivity.
Defined.

(** X10. Resolving the same name again is served from the cache. After a
    miss resolved to an identifier [tvdb <> 0], a second call of the
    resolver, made while the store is reachable, within the expiry window
    of the write and with a window the datetime arithmetic of the read
    can hold, returns [tvdb] without asking the lookup API and without
    writing. *)
Theorem second_resolve_is_served_from_cache (E : Env) (name : string) (w w1 : World)
    (first : Json) (rest : list Json) (tvdb : Z) :
  TVDBCache.get E name w = (Ok None, w1) ->
  lookup_results (sonarr_lookup E (trace w1) name) first rest ->
  getitem first "tvdbId" = Ok (JInt tvdb) ->
  in_int64 tvdb = true ->
  db_reachable E (trace (asked name w1)) = true ->
  tvdb <> 0 ->
  db_reachable E (trace (snd (lookup_series_by_name E name w))) = true ->
  cutoff_representable E (read_time E (snd (lookup_series_by_name E name w))) ->
  read_time E (snd (lookup_series_by_name E name w)) - read_time E (asked name w1)
    < expiry_window E ->
  exists w3,
    lookup_series_by_name E name (snd (lookup_series_by_name E name w)) = (Ok tvdb, w3)
    /\ sonarr_calls w3 = sonarr_calls (snd (lookup_series_by_name E name w))
    /\ table w3 = table (snd (lookup_series_by_name E name w)).
Proof.
  intros Hget Hres Hf Hi Hdb Hv.
  rewrite (resolve_first_run _ _ _ _ _ _ _ Hget Hres Hf Hi Hdb). cbn [snd].
  intros Hdb2 Hrange Hage.
  match goal with |- context [lookup_series_by_name E name ?w2] =>
    assert (Hhit : TVDBCache.get E name w2
                   = (Ok (Some tvdb), happened EvClock (happened EvConnect w2)))
  end.
  { pose proof (cutoff_ok _ _ Hrange) as Hcut. unfold read_time at 1 in Hcut.
    rewrite get_run, Hdb2, Hcut. cbn [table].
    rewrite replace_into_select. cbn [created_at tvdb_id].
    match goal with |- context [?a <? ?b] => destruct (Z.ltb_spec a b) as [_|Hge] end;
      [reflexivity | lia]. }
  eexists. split; [apply (lookup_after_hit _ _ _ _ _ Hhit Hv)|].
  split; reflexivity.
Qed.

Lemma second_resolve_is_served_from_cache_witness :
  fst (lookup_series_by_name (finds 42) "Example" start) = Ok 42
  /\ fst (lookup_series_by_name (finds 42) "Example"
            (snd (lookup_series_by_name (finds 42) "Example" start))) = Ok 42
  /\ sonarr_calls (snd (lookup_series_by_name (finds 42) "Example"
                          (snd (lookup_series_by_name (finds 42) "Example" start))))
     = [EvSonarr "Example"].
Proof.
  assert (Hres : lookup_results
            (sonarr_lookup (finds 42) (trace (happened EvConnect start)) "Example")
            (JDict [("title", JStr "x"); ("tvdbId", JInt 42)]) []).
  { exists 200. split; [reflexivity | status_ok]. }
  assert (Hne : 42 <> 0) by discriminate.
  assert (Hage : read_time (finds 42) (snd (lookup_series_by_name (finds 42) "Example" start))
                 - read_time (finds 42) (asked "Example" (happened EvConnect start))
                 < expiry_window (finds 42)) by (vm_compute; reflexivity).
  assert (Hrange : cutoff_representable (finds 42)
                     (read_time (finds 42)
                        (snd (lookup_series_by_name (finds 42) "Example" start)))).
  { vm_compute. repeat split; discriminate. }
  destruct (second_resolve_is_served_from_cache (finds 42) "Example" start _ _ _ 42
              eq_refl Hres eq_refl eq_refl eq_refl Hne eq_refl Hrange Hage)
    as (w3 & Hrun & Hcalls & _).
  split; [reflexivity|]. split; [rewrite Hrun; reflexivity|]. rewrite Hrun. cbn [snd].
  rewrite Hcalls. reflexivity.
Defined.

(** X16. An identifier SQLite cannot hold is not stored. After a miss,
    when the first result carries an integer outside the signed 64-bit
    range and the store is reachable, the resolver raises the overflow
    error of the write instead of returning, and the table is left as it
    was. *)
Theorem oversized_identifier_is_not_stored (E : Env) (name : string) (w w1 : World)
    (first : Json) (rest : list Json) (tvdb : Z) :
  TVDBCache.get E name w = (Ok None, w1) ->
  lookup_results (sonarr_lookup E (trace w1) name) first rest ->
  getitem first "tvdbId" = Ok (JInt tvdb) ->
  in_int64 tvdb = false ->
  db_reachable E (trace (asked name w1)) = true ->
  fst (lookup_series_by_name E name w) = Raise OverflowError
  /\ table (snd (lookup_series_by_name E name w)) = table w.
Proof.
  intros Hget (code & Hr & Hc) Hf Hi Hdb.
  assert (Hrun : lookup_series_by_name E name w
                 = (Raise OverflowError, happened EvClock (happened EvConnect (asked name w1)))).
  { rewrite (lookup_after_miss _ _ _ _ Hget).
    unfold try_except. rewrite (request_decoded _ _ _ _ _ Hr Hc).
    cbn [truthy negb]. unfold bind, lift. cbn [getitem_0]. rewrite Hf.
    cbn [as_int]. unfold ret at 1. rewrite set_run, Hdb, Hi. reflexivity. }
  rewrite Hrun. split; [reflexivity | apply (get_ok_inv _ _ _ _ _ Hget)].
Qed.

Lemma oversized_identifier_is_not_stored_witness :
  in_int64 (2 ^ 63) = false
  /\ fst (lookup_series_by_name finds_oversized "A" start) = Raise OverflowError
  /\ table (snd (lookup_series_by_name finds_oversized "A" start)) = empty_table.
Proof.
  assert (Hres : lookup_results
            (sonarr_lookup finds_oversized (trace (happened EvConnect start)) "A")
            (JDict [("title", JStr "x"); ("tvdbId", JInt (2 ^ 63))]) []).
  { exists 200. split; [reflexivity | status_ok]. }
  split; [reflexivity|].
  exact (oversized_identifier_is_not_stored finds_oversized "A" start _ _ _ (2 ^ 63)
           eq_refl Hres eq_refl eq_refl eq_refl).
Defined.

(** * Further properties of the fetcher and the route *)

Lemma comprehension_keeps {A B : Type} (P : World -> Prop) (f : A -> M B) :
  (forall x w, P w -> P (snd (f x w))) ->
  forall l w, P w -> P (snd (comprehension f l w)).
Proof.
  intros Hf. induction l as [|x l IH]; intros w Hw; [exact Hw|].
  cbn. unfold bind at 1. pose proof (Hf x w Hw) as H1.
  destruct (f x w) as [[y|e|] w1]; cbn in H1; try exact H1.
  unfold bind at 1. pose proof (IH w1 H1) as H2.
  destruct (comprehension f l w1) as [[ys|e|] w2]; exact H2.
Qed.

Lemma collection_item_keeps (E : Env) (P : World -> Prop) :
  (forall name w, P w -> P (snd (lookup_series_by_name E name w))) ->
  forall item w, P w -> P (snd (collection_item E item w)).
Proof.
  intros Hl item w Hw. unfold collection_item, bind at 1, lift.
  destruct (getitem item "name") as [nm|e|]; try exact Hw.
  unfold bind at 1. destruct nm as [| | |s| |]; cbn [as_str]; try exact Hw.
  unfold ret at 1. unfold bind at 1. pose proof (Hl s w Hw) as H1.
  destruct (lookup_series_by_name E s w) as [[v|e|] w1]; exact H1.
Qed.

(** What holds after the call to the tracking service, survives a log
    line and survives each call of the resolver, holds after the fetch. *)
Lemma fetch_keeps (E : Env) (P : World -> Prop) :
  (forall lvl w, P w -> P (happened (EvLog lvl) w)) ->
  (forall name w, P w -> P (snd (lookup_series_by_name E name w))) ->
  forall w, P (happened EvBangumi w) -> P (snd (get_bgm_collection E w)).
Proof.
  intros Hlog Hl w Hw.
  destruct (bgm_collection E (trace w)) as [f|code b] eqn:Hr.
  - unfold get_bgm_collection, try_except, bind at 1 2 3, requests_get.
    rewrite Hr. destruct f; apply Hlog; exact Hw.
  - destruct ((400 <=? code) && (code <? 600)) eqn:Hb.
    + unfold get_bgm_collection, try_except, bind at 1 2 3, requests_get, raise_for_status.
      rewrite Hr. cbn [fst]. rewrite Hb. apply Hlog. exact Hw.
    + assert (Hc : ~ failed_status code)
        by (intros Hbad; apply status_check in Hbad; congruence).
      destruct b as [|j].
      * unfold get_bgm_collection, try_except, bind at 1 2 3, requests_get,
          raise_for_status, response_json.
        rewrite Hr. cbn [fst snd]. rewrite Hb. apply Hlog. exact Hw.
      * rewrite (fetch_decoded _ _ _ _ Hr Hc). unfold try_except, bind at 1, lift.
        destruct (iterate j) as [items|e|]; [|apply Hlog; exact Hw|exact Hw].
        pose proof (comprehension_keeps P (collection_item E)
                      (collection_item_keeps E P Hl) items _ Hw) as H1.
        destruct (comprehension (collection_item E) items (happened EvBangumi w))
          as [[ys|e|] w1]; [exact H1 | apply Hlog; exact H1 | exact H1].
Qed.

Lemma lookup_keeps_unique (E : Env) (name : string) (w : World) :
  unique_names (table w) -> unique_names (table (snd (lookup_series_by_name E name w))).
Proof.
  intros Hu.
  destruct (lookup_cases E name w) as [e0 w1 Hget | v w1 Hget Hv | c w1 r Hget Hc Hask].
  - cbn [snd]. destruct (get_raise_inv _ _ _ _ _ Hget) as (_ & -> & _). exact Hu.
  - cbn. rewrite (proj1 (get_ok_inv _ _ _ _ _ Hget)). exact Hu.
  - pose proof (proj1 (get_ok_inv _ _ _ _ _ Hget)) as Ht.
    destruct Hask; cbn [snd table happened asked]; try (rewrite Ht; exact Hu).
    apply replace_into_unique. rewrite Ht. exact Hu.
Qed.

Lemma lookup_keeps_bangumi_calls (E : Env) (name : string) (w : World) :
  bangumi_calls (snd (lookup_series_by_name E name w)) = bangumi_calls w.
Proof.
  destruct (lookup_cases E name w) as [e0 w1 Hget | v w1 Hget Hv | c w1 r Hget Hc Hask].
  - apply (get_raise_inv _ _ _ _ _ Hget).
  - apply (get_trace_inv _ _ _ _ _ Hget).
  - destruct (get_trace_inv _ _ _ _ _ Hget) as [_ Hb].
    destruct Hask; unfold bangumi_calls in *; cbn; exact Hb.
Qed.

(** X15. A fetch keeps the table well formed: started on a table with at
    most one row per series name, [get_bgm_collection] leaves such a
    table, whatever the two services answer and however the fetch ends. *)
Theorem fetch_keeps_unique_names (E : Env) (w : World) :
  unique_names (table w) ->
  unique_names (table (snd (get_bgm_collection E w))).
Proof.
  intros Hu.
  apply (fetch_keeps E (fun w' => unique_names (table w'))).
  - intros lvl w' H. exact H.
  - intros name w' H. apply lookup_keeps_unique. exact H.
  - exact Hu.
Qed.

Lemma fetch_keeps_unique_names_witness :
  unique_names (table (world_of two_rows))
  /\ unique_names (table (snd (get_bgm_collection example_env (world_of two_rows))))
  /\ map series_name (rows (table (snd (get_bgm_collection example_env (world_of two_rows)))))
     = ["Example"; "example"; "A"].
Proof.
  assert (Hu : unique_names (table (world_of two_rows))).
  { apply NoDup_unique_names. cbn. repeat constructor; cbn; intuition discriminate. }
  split; [exact Hu|]. split; [|reflexivity].
  exact (fetch_keeps_unique_names example_env (world_of two_rows) Hu).
Defined.

(** X14. One fetch calls the tracking service exactly once: the resolver
    never calls it, and neither a failure nor the number of entries
    changes that. *)
Theorem fetch_asks_bangumi_once (E : Env) (w : World) :
  bangumi_calls (snd (get_bgm_collection E w)) = EvBangumi :: bangumi_calls w.
Proof.
  apply (fetch_keeps E (fun w' => bangumi_calls w' = EvBangumi :: bangumi_calls w)).
  - intros lvl w' H. exact H.
  - intros name w' H. rewrite lookup_keeps_bangumi_calls. exact H.
  - reflexivity.
Qed.

Lemma collection_item_ok (E : Env) (entry : Json) (it : CollectionItem) (w w1 : World) :
  collection_item E entry w = (Ok it, w1) -> item_of_entry entry it.
Proof.
  unfold collection_item, item_of_entry, has_name, bind at 1, lift.
  destruct (getitem entry "name") as [nm|e|]; try discriminate.
  unfold bind at 1. destruct nm as [| | |s| |]; cbn [as_str]; try discriminate.
  unfold ret at 1. unfold bind at 1.
  destruct (lookup_series_by_name E s w) as [[v|e|] w']; try discriminate.
  intros H. injection H as <- _. reflexivity.
Qed.

Lemma comprehension_ok (E : Env) (entries : list Json) :
  forall (items : list CollectionItem) (w w' : World),
    comprehension (collection_item E) entries w = (Ok items, w') ->
    Forall2 item_of_entry entries items.
Proof.
  induction entries as [|entry entries IH]; intros items w w'.
  - cbn. intros H. injection H as <- _. constructor.
  - cbn. unfold bind at 1.
    destruct (collection_item E entry w) as [[it|e|] w1] eqn:Hit; try discriminate.
    unfold bind at 1.
    destruct (comprehension (collection_item E) entries w1) as [[its|e|] w2] eqn:Hrest;
      try discriminate.
    intros H. injection H as <- _. constructor.
    + apply (collection_item_ok _ _ _ _ _ Hit).
    + apply (IH _ _ _ Hrest).
Qed.

(** X11. A fetch is all or nothing. When the tracking service answers
    with a list of entries, the list [get_bgm_collection] returns is
    either empty or has one item per entry, each titled with the display
    name of its entry, in order; it is never a proper part of the
    collection. *)
Theorem fetch_is_all_or_nothing (E : Env) (w : World) (code : Z) (entries : list Json)
    (items : list CollectionItem) :
  bgm_collection E (trace w) = Reply code (Decoded (JList entries)) ->
  fst (get_bgm_collection E w) = Ok items ->
  items = []
  \/ (List.length items = List.length entries /\ Forall2 item_of_entry entries items).
Proof.
  intros Hr Hrun.
  destruct ((400 <=? code) && (code <? 600)) eqn:Hb.
  - left. revert Hrun.
    unfold get_bgm_collection, try_except, bind at 1 2 3, requests_get, raise_for_status.
    rewrite Hr. cbn [fst]. rewrite Hb. cbn. intros H. injection H as <-. reflexivity.
  - assert (Hc : ~ failed_status code)
      by (intros Hbad; apply status_check in Hbad; congruence).
    rewrite (fetch_decoded _ _ _ _ Hr Hc) in Hrun.
    unfold try_except, bind at 1, lift in Hrun. cbn [iterate] in Hrun.
    destruct (comprehension (collection_item E) entries (happened EvBangumi w))
      as [[its|e|] w1] eqn:Hcomp; cbn in Hrun.
    + injection Hrun as <-. right.
      pose proof (comprehension_ok _ _ _ _ _ Hcomp) as Hall.
      split; [symmetry; apply (Forall2_length Hall) | exact Hall].
    + injection Hrun as <-. left. reflexivity.
    + discriminate Hrun.
Qed.

Lemma fetch_is_all_or_nothing_witness :
  fst (get_bgm_collection half_named start) = Ok []
  /\ (fst (get_bgm_collection example_env start)
      = Ok [ {| title := "A"; tvdbId := 1 |}; {| title := "B"; tvdbId := 0 |} ])
  /\ ([ {| title := "A"; tvdbId := 1 |}; {| title := "B"; tvdbId := 0 |} ] = []
      \/ (List.length [ {| title := "A"; tvdbId := 1 |}; {| title := "B"; tvdbId := 0 |} ]
          = List.length [JDict [("name", JStr "A")]; JDict [("name", JStr "B")]]
          /\ Forall2 item_of_entry [JDict [("name", JStr "A")]; JDict [("name", JStr "B")]]
               [ {| title := "A"; tvdbId := 1 |}; {| title := "B"; tvdbId := 0 |} ])).
Proof.
  split; [reflexivity|]. split; [reflexivity|].
  exact (fetch_is_all_or_nothing example_env start 200 _ _ eq_refl eq_refl).
Defined.

(** X12. A payload of the tracking service that is not a list gives the
    empty collection: whatever JSON value it is (null as for a user
    without a collection, an error object, a string, a number), the fetch
    returns [], writes nothing and asks the lookup API nothing. *)
Theorem non_list_payload_gives_nothing (E : Env) (w : World) (code : Z) (j : Json) :
  bgm_collection E (trace w) = Reply code (Decoded j) ->
  (forall l, j <> JList l) ->
  fst (get_bgm_collection E w) = Ok []
  /\ table (snd (get_bgm_collection E w)) = table w
  /\ sonarr_calls (snd (get_bgm_collection E w)) = sonarr_calls w.
Proof.
  intros Hr Hnl.
  assert (Hrun : exists w1, get_bgm_collection E w = (Ok [], w1)
                            /\ table w1 = table w /\ sonarr_calls w1 = sonarr_calls w).
  { destruct ((400 <=? code) && (code <? 600)) eqn:Hb.
    - unfold get_bgm_collection, try_except, bind at 1 2 3, requests_get, raise_for_status.
      rewrite Hr. cbn [fst]. rewrite Hb. eexists. split; [reflexivity | split; reflexivity].
    - assert (Hc : ~ failed_status code)
        by (intros Hbad; apply status_check in Hbad; congruence).
      rewrite (fetch_decoded _ _ _ _ Hr Hc). unfold try_except, bind at 1, lift.
      destruct j as [| | |s|l|d]; cbn [iterate]; try (eexists; (split; [reflexivity | split; reflexivity])).
      + destruct s as [|c s]; cbn; eexists; (split; [reflexivity | split; reflexivity]).
      + exfalso. apply (Hnl l). reflexivity.
      + destruct d as [|[k v] d]; cbn; eexists; (split; [reflexivity | split; reflexivity]). }
  destruct Hrun as (w1 & -> & Ht & Hs). repeat split; assumption.
Qed.

Lemma non_list_payload_gives_nothing_witness :
  fst (get_bgm_collection answers_object start) = Ok []
  /\ table (snd (get_bgm_collection answers_object start)) = empty_table
  /\ sonarr_calls (snd (get_bgm_collection answers_object start)) = [].
Proof.
  assert (Hnl : forall l, JDict [("error", JStr "not found")] <> JList l)
    by (intros l; discriminate).
  exact (non_list_payload_gives_nothing answers_object start 200 _ eq_refl Hnl).
Defined.

(** X13. The route never fails: no exception leaves [GET /watching-list],
    and every response it gives has status 200 and carries as its body
    the list [get_bgm_collection] returned. *)
Theorem route_never_fails (E : Env) (w : World) :
  (forall e, fst (GET_watching_list E w) <> Raise e)
  /\ (forall r, fst (GET_watching_list E w) = Ok r ->
        status r = 200
        /\ exists items, payload r = Some items
                         /\ fst (get_bgm_collection E w) = Ok items).
Proof.
  pose proof (fetch_never_raises E w) as Hnr.
  unfold GET_watching_list, flask_dispatch, try_except, get_list, bind.
  destruct (get_bgm_collection E w) as [[items|e|] w1]; cbn in *.
  - split; [discriminate|]. intros r H. injection H as <-.
    split; [reflexivity|]. exists items. split; reflexivity.
  - exfalso. apply (Hnr e). reflexivity.
  - split; discriminate.
Qed.

Lemma lookup_calls_length (E : Env) (name : string) (w : World) :
  (List.length (sonarr_calls (snd (lookup_series_by_name E name w)))
   <= S (List.length (sonarr_calls w)))%nat.
Proof.
  destruct (lookup_cases E name w) as [e0 w1 Hget | v w1 Hget Hv | c w1 r Hget Hc Hask].
  - cbn [snd]. destruct (get_raise_inv _ _ _ _ _ Hget) as (_ & _ & -> & _).
    apply Nat.le_succ_diag_r.
  - cbn [snd]. rewrite (proj1 (get_trace_inv _ _ _ _ _ Hget)). apply Nat.le_succ_diag_r.
  - destruct (get_trace_inv _ _ _ _ _ Hget) as [Hs _].
    destruct Hask; unfold sonarr_calls in *; cbn; rewrite Hs; apply le_n.
Qed.

Lemma comprehension_calls (E : Env) (l : list Json) :
  forall w,
    (List.length (sonarr_calls (snd (comprehension (collection_item E) l w)))
     <= List.length (sonarr_calls w) + List.length l)%nat.
Proof.
  induction l as [|item l IH]; intros w; [cbn; lia|].
  assert (Hitem : (List.length (sonarr_calls (snd (collection_item E item w)))
                   <= S (List.length (sonarr_calls w)))%nat).
  { unfold collection_item, bind at 1, lift.
    destruct (getitem item "name") as [nm|e|]; cbn [snd]; try lia.
    unfold bind at 1. destruct nm as [| | |s| |]; cbn [as_str untyped snd]; try lia.
    unfold ret at 1. unfold bind at 1. pose proof (lookup_calls_length E s w) as H.
    destruct (lookup_series_by_name E s w) as [[v|e|] w1]; exact H. }
  cbn [comprehension List.length]. unfold bind at 1.
  destruct (collection_item E item w) as [[y|e|] w1]; cbn [snd] in *; try lia.
  unfold bind at 1. specialize (IH w1).
  destruct (comprehension (collection_item E) l w1) as [[ys|e|] w2];
    unfold ret; cbn [snd] in *; lia.
Qed.

(** X17. A fetch asks the lookup API at most once per entry of the
    collection. *)
Theorem fetch_asks_sonarr_once_per_entry (E : Env) (w : World) (code : Z)
    (entries : list Json) :
  bgm_collection E (trace w) = Reply code (Decoded (JList entries)) ->
  (List.length (sonarr_calls (snd (get_bgm_collection E w)))
   <= List.length (sonarr_calls w) + List.length entries)%nat.
Proof.
  intros Hr.
  destruct ((400 <=? code) && (code <? 600)) eqn:Hb.
  - unfold get_bgm_collection, try_except, bind at 1 2 3, requests_get, raise_for_status.
    rewrite Hr. cbn [fst]. rewrite Hb. unfold sonarr_calls. cbn. lia.
  - assert (Hc : ~ failed_status code)
      by (intros Hbad; apply status_check in Hbad; congruence).
    rewrite (fetch_decoded _ _ _ _ Hr Hc). unfold try_except, bind at 1, lift.
    cbn [iterate].
    pose proof (comprehension_calls E entries (happened EvBangumi w)) as H.
    destruct (comprehension (collection_item E) entries (happened EvBangumi w))
      as [[ys|e|] w1]; unfold sonarr_calls in *; cbn in *; exact H.
Qed.

Lemma fetch_asks_sonarr_once_per_entry_witness :
  sonarr_calls (snd (get_bgm_collection example_env start)) = [EvSonarr "B"; EvSonarr "A"]
  /\ (List.length (sonarr_calls (snd (get_bgm_collection example_env start))) <= 0 + 2)%nat.
Proof.
  split; [reflexivity|].
  exact (fetch_asks_sonarr_once_per_entry example_env start 200
           [JDict [("name", JStr "A")]; JDict [("name", JStr "B")]] eq_refl).
Defined.

(** X18. A lookup payload that Python counts as false is taken for an
    empty result, list or not: after a miss, when the call succeeds with
    null, false, 0, an empty string, an empty list or an empty object,
    the resolver logs a warning, returns 0 and writes nothing. *)
Theorem falsy_payload_counts_as_empty (E : Env) (name : string) (w w1 : World)
    (code : Z) (j : Json) :
  TVDBCache.get E name w = (Ok None, w1) ->
  sonarr_lookup E (trace w1) name = Reply code (Decoded j) ->
  ~ failed_status code ->
  truthy j = false ->
  lookup_series_by_name E name w = (Ok 0, happened (EvLog Warning) (asked name w1))
  /\ table (snd (lookup_series_by_name E name w)) = table w.
Proof.
  intros Hget Hr Hc Hj.
  assert (Hrun : lookup_series_by_name E name w
                 = (Ok 0, happened (EvLog Warning) (asked name w1))).
  { rewrite (lookup_after_miss _ _ _ _ Hget). unfold try_except.
    rewrite (request_decoded _ _ _ _ _ Hr Hc), Hj. reflexivity. }
  rewrite Hrun. split; [reflexivity | apply (get_ok_inv _ _ _ _ _ Hget)].
Qed.

Lemma falsy_payload_counts_as_empty_witness :
  truthy (JDict []) = false
  /\ fst (lookup_series_by_name (answers (JDict [])) "A" start) = Ok 0
  /\ table (snd (lookup_series_by_name (answers (JDict [])) "A" start)) = empty_table.
Proof.
  assert (Hc : ~ failed_status 200) by status_ok.
  destruct (falsy_payload_counts_as_empty (answers (JDict [])) "A" start _ 200 (JDict [])
              eq_refl eq_refl Hc eq_refl) as [Hrun Ht].
  split; [reflexivity|]. split; [rewrite Hrun; reflexivity | exact Ht].
Defined.
